(** * Vault metrics ETL: a shallow embedding and its verified properties

    The development embeds the two ingestion scripts of the repository,
    [etl_with_history.py] (one-shot backfill followed by live polling) and
    [etl.py] (live polling only), together with the part of their
    environment the properties depend on: Python's integer true division
    and [range], the declared [vault_metrics] table with its key columns,
    the SQLAlchemy session discipline (add / commit / rollback / close) and
    the chain reader seen as an oracle that may fail.

    Layout: definitions first (Python layer, table and session, the two
    scripts as modules), then the lemmas. *)

From Stdlib Require Import ZArith List String Ascii Bool Lia.
From Stdlib Require Import Floats.SpecFloat DecimalString DecimalZ DecimalPos.
From Stdlib Require Import Sorting.Sorted.
Import ListNotations.

Local Open Scope string_scope.
Local Open Scope list_scope.
Local Open Scope Z_scope.

(* ================================================================== *)
(** ** Python layer *)

(** Exceptions that can reach the scripts' [except Exception] handlers.
    Each carries the text Python's [str(e)] would give. *)
Inductive exn : Type :=
| ValueError (msg : string)
| ZeroDivisionError (msg : string)
| OverflowError (msg : string)
| NotModelled (msg : string)
| RpcError (msg : string)
| ArgumentError (msg : string)
| OperationalError (msg : string)
| IntegrityError (msg : string).

Definition str_exn (e : exn) : string :=
  match e with
  | ValueError m | ZeroDivisionError m | OverflowError m | NotModelled m
  | RpcError m | ArgumentError m | OperationalError m | IntegrityError m => m
  end.

Inductive result (A : Type) : Type :=
| Ok (a : A)
| Raise (e : exn).
Arguments Ok {A} a.
Arguments Raise {A} e.

Definition bindR {A B} (r : result A) (k : A -> result B) : result B :=
  match r with
  | Ok a => k a
  | Raise e => Raise e
  end.

Notation "'letR' x := r 'in' k" := (bindR r (fun x => k))
  (at level 10, x name, r at level 100, k at level 200).

(** A Python [float] is a binary64 value. *)
Definition float := spec_float.
Definition prec : Z := 53.
Definition emax : Z := 1024.

(** The literal [1.0], and the value [1.5] of the worked example. *)
Definition float_one : float := S754_finite false 4503599627370496 (-52).
Definition float_three_halves : float :=
  S754_finite false 6755399441055744 (-52).

(** An [int] seen as an unrounded binary float with exponent 0. *)
Definition Z2SF (z : Z) : spec_float :=
  match z with
  | Z0 => S754_zero false
  | Zpos p => S754_finite false p 0
  | Zneg p => S754_finite true p 0
  end.

(** The exact quotient of two integers rounded once to binary64. *)
Definition b64_div (a b : Z) : float := SFdiv prec emax (Z2SF a) (Z2SF b).

(** The value [m * 2^e] of a finite float as the fraction
    [float_num m e / float_den e] of two integers. *)
Definition float_num (m e : Z) : Z := m * 2 ^ Z.max e 0.
Definition float_den (e : Z) : Z := 2 ^ Z.max (- e) 0.

(** [m * 2^e] is the rational [a / b]. *)
Definition represents (m e a b : Z) : Prop :=
  float_num m e * b = a * float_den e.

(** [m * 2^e] lies within half a unit in the last place, [2^e / 2], of
    [a / b]. *)
Definition within_half_ulp (m e a b : Z) : Prop :=
  - (float_num 1 e * b) <= 2 * (float_num m e * b - a * float_den e)
                        <= float_num 1 e * b.

(** What it means for a float to be the rounded quotient of [a >= 0] by
    [b > 0]: a canonical binary64 within half a unit of [a / b]; zero only
    for quotients up to [2^-1075]; infinite only from [2^1023] on. *)
Definition rounds_quotient (a b : Z) (f : float) : Prop :=
  match f with
  | S754_zero s => s = false /\ 2 * a * 2 ^ 1074 <= b
  | S754_finite s m e =>
      s = false /\ bounded prec emax m e = true
      /\ within_half_ulp (Z.pos m) e a b
  | S754_infinity s => s = false /\ 2 ^ 1023 * b <= a
  | S754_nan => False
  end.

(** [a / b] on two [int]s: the correctly rounded quotient,
    [ZeroDivisionError] for a zero divisor and [OverflowError] when the
    rounded quotient is not finite. *)
Definition int_truediv (a b : Z) : result float :=
  if b =? 0 then Raise (ZeroDivisionError "division by zero")
  else match b64_div a b with
       | S754_infinity _ | S754_nan =>
           Raise (OverflowError "integer division result too large for a float")
       | q => Ok q
       end.

(** [b ** e] on two [int]s with [e >= 0]. For a negative exponent Python
    switches to a float power; the exponent here is decoded from a [uint8]
    ABI output, so that branch is left out of the model and flagged. *)
Definition int_pow (b e : Z) : result Z :=
  if e <? 0 then Raise (NotModelled "int ** negative int") else Ok (b ^ e).

(** [str(n)] for an [int], and [int(s)] on a decimal string. *)
Definition str_int (n : Z) : string := NilZero.string_of_int (Z.to_int n).

Definition int_of_str (s : string) : option Z :=
  option_map Z.of_int (NilZero.int_of_string s).

(** [range(start, stop, step)] as the list it iterates over. *)
Definition range_length (start stop step : Z) : Z :=
  if 0 <? step
  then (if start <? stop then (stop - start - 1) / step + 1 else 0)
  else (if stop <? start then (start - stop - 1) / (- step) + 1 else 0).

Definition range_items (start step : Z) (len : nat) : list Z :=
  map (fun i => start + Z.of_nat i * step) (seq 0 len).

Definition py_range (start stop step : Z) : result (list Z) :=
  if step =? 0 then Raise (ValueError "range() arg 3 must not be zero")
  else Ok (range_items start step (Z.to_nat (range_length start stop step))).

(** [s.lower()] (ASCII letters) and [needle in hay]. *)
Definition lower_ascii (c : ascii) : ascii :=
  let n := nat_of_ascii c in
  if ((65 <=? n) && (n <=? 90))%nat then ascii_of_nat (n + 32) else c.

Fixpoint lower (s : string) : string :=
  match s with
  | EmptyString => EmptyString
  | String c r => String (lower_ascii c) (lower r)
  end.

Fixpoint contains (needle hay : string) : bool :=
  if prefix needle hay then true
  else match hay with
       | EmptyString => false
       | String _ r => contains needle r
       end.

(** Truthiness of an optional string ([None] and [""] are falsy). *)
Definition truthy (s : option string) : bool :=
  match s with
  | Some (String _ _) => true
  | _ => false
  end.

(* ================================================================== *)
(** ** The [VaultMetric] entity and the declared table *)

(** An ORM object: an attribute that was not given to the constructor is
    [None] until the insert fills in a default. Instants are seconds since
    the epoch. *)
Record VaultMetric : Type := {
  id : option Z;
  timestamp : option Z;
  block_number : option Z;
  tvl_assets : option float;
  share_price : option float;
  raw_total_assets : option string
}.

Inductive cell : Type :=
| CNull
| CInt (z : Z)
| CTime (t : Z)
| CFloat (f : float)
| CText (s : string).

Definition cell_eq_dec (a b : cell) : {a = b} + {a <> b}.
Proof.
  repeat decide equality.
Defined.
Arguments cell_eq_dec : simpl never.

Definition opt_cell {A} (f : A -> cell) (o : option A) : cell :=
  match o with
  | Some a => f a
  | None => CNull
  end.

Inductive sqltype : Type := Integer | BigInteger | Float | String_ | DateTime.

Record column : Type := {
  col_name : string;
  col_type : sqltype;
  col_get : VaultMetric -> cell;
  primary_key : bool;
  unique : bool
}.

(** The columns as both scripts declare them: [id] is the only key. *)
Definition vault_metrics : list column :=
  [ {| col_name := "id"; col_type := Integer;
       col_get := fun m => opt_cell CInt (id m);
       primary_key := true; unique := false |};
    {| col_name := "timestamp"; col_type := DateTime;
       col_get := fun m => opt_cell CTime (timestamp m);
       primary_key := false; unique := false |};
    {| col_name := "block_number"; col_type := BigInteger;
       col_get := fun m => opt_cell CInt (block_number m);
       primary_key := false; unique := false |};
    {| col_name := "tvl_assets"; col_type := Float;
       col_get := fun m => opt_cell CFloat (tvl_assets m);
       primary_key := false; unique := false |};
    {| col_name := "share_price"; col_type := Float;
       col_get := fun m => opt_cell CFloat (share_price m);
       primary_key := false; unique := false |};
    {| col_name := "raw_total_assets"; col_type := String_;
       col_get := fun m => opt_cell CText (raw_total_assets m);
       primary_key := false; unique := false |} ].

Definition key_column (c : column) : bool := primary_key c || unique c.

(** Two rows collide on a column when both hold the same non-NULL value. *)
Definition collides (c : column) (row other : VaultMetric) : bool :=
  match col_get c row with
  | CNull => false
  | v => if cell_eq_dec v (col_get c other) then true else false
  end.

Definition violated (schema : list column) (rows : list VaultMetric)
    (row : VaultMetric) : option column :=
  find (fun c => key_column c && existsb (collides c row) rows) schema.

Definition unique_violation (c : column) : exn :=
  IntegrityError
    (String.append
       "(psycopg2.errors.UniqueViolation) duplicate key value violates unique constraint vault_metrics_"
       (col_name c)).

(** Server-side defaults applied by an INSERT: the autoincrement [id] and
    [default=datetime.utcnow] for [timestamp]. *)
Definition with_defaults (next : Z) (now : Z) (m : VaultMetric) : VaultMetric :=
  {| id := match id m with Some i => Some i | None => Some next end;
     timestamp := match timestamp m with Some t => Some t | None => Some now end;
     block_number := block_number m;
     tvl_assets := tvl_assets m;
     share_price := share_price m;
     raw_total_assets := raw_total_assets m |}.

(** One transaction: the pending objects are inserted in order; the first
    key violation fails the whole flush. The result is the new table
    contents and the rows as stored. *)
Fixpoint flush (schema : list column) (now : Z) (rows : list VaultMetric)
    (next : Z) (pend : list VaultMetric)
    : result (list VaultMetric * list VaultMetric * Z) :=
  match pend with
  | [] => Ok (rows, [], next)
  | m :: rest =>
      let row := with_defaults next now m in
      match violated schema rows row with
      | Some c => Raise (unique_violation c)
      | None =>
          letR r := flush schema now (rows ++ [row]) (next + 1) rest in
          let '(rows', stored, next') := r in
          Ok (rows', row :: stored, next')
      end
  end.

(* ================================================================== *)
(** ** The outside world *)

Inductive block_identifier : Type :=
| Latest
| BlockNum (n : Z).

Record block_data : Type := {
  number : Z;
  block_timestamp : Z
}.

(** What the node answers during one loop iteration. *)
Record ChainReader : Type := {
  get_block : block_identifier -> result block_data;
  totalAssets : block_identifier -> result Z;
  totalSupply : block_identifier -> result Z;
  decimals : block_identifier -> result Z
}.

(** Oracles indexed by logical time ([tick]): the node's answers, a store
    fault (connectivity loss and the like) and the wall clock. *)
Record Env : Type := {
  chain : nat -> ChainReader;
  db_fault : nat -> option exn;
  wall_clock : nat -> Z
}.

Inductive rpc_request : Type :=
| ReqGetBlock (b : block_identifier)
| ReqTotalAssets (b : block_identifier)
| ReqTotalSupply (b : block_identifier)
| ReqDecimals (b : block_identifier).

(** The scripts' [print] calls, one constructor per format string. *)
Inductive message : Type :=
| MsgBackfillStart
| MsgBackfillLoaded (block : Z)
| MsgBackfillError (block : Z) (e : exn)
| MsgBackfillDone
| MsgBackfillSkip (count : Z)
| MsgLiveStart
| MsgLiveMetric (ts : option Z) (tvl : option float)
| MsgLiveError (e : exn)
| MsgRunStart
| MsgLoaded (ts : option Z) (block : option Z) (tvl price : option float)
| MsgLoadError (e : exn).

Inductive event : Type :=
| EvRpc (req : rpc_request)
| EvQueryCount
| EvInsert (row : VaultMetric)
| EvRollback
| EvSleep (milliseconds : Z)
| EvPrint (m : message).

(** The database (the table as it exists on the server, its rows in
    insertion order and its id sequence), the open session's pending
    objects, logical time and the trace of everything observable. *)
Record State : Type := {
  table_exists : bool;
  db_schema : list column;
  rows : list VaultMetric;
  next_id : Z;
  pending : list VaultMetric;
  tick : nat;
  trace : list event
}.

Definition initial_state : State :=
  {| table_exists := false; db_schema := []; rows := []; next_id := 1;
     pending := []; tick := 0%nat; trace := [] |}.

Definition set_table (sch : list column) (st : State) : State :=
  {| table_exists := true; db_schema := sch; rows := rows st;
     next_id := next_id st; pending := pending st; tick := tick st;
     trace := trace st |}.

Definition set_rows (rs : list VaultMetric) (next : Z) (st : State) : State :=
  {| table_exists := table_exists st; db_schema := db_schema st; rows := rs;
     next_id := next; pending := pending st; tick := tick st;
     trace := trace st |}.

Definition set_pending (p : list VaultMetric) (st : State) : State :=
  {| table_exists := table_exists st; db_schema := db_schema st;
     rows := rows st; next_id := next_id st; pending := p; tick := tick st;
     trace := trace st |}.

Definition set_tick (t : nat) (st : State) : State :=
  {| table_exists := table_exists st; db_schema := db_schema st;
     rows := rows st; next_id := next_id st; pending := pending st;
     tick := t; trace := trace st |}.

Definition log (evs : list event) (st : State) : State :=
  {| table_exists := table_exists st; db_schema := db_schema st;
     rows := rows st; next_id := next_id st; pending := pending st;
     tick := tick st; trace := trace st ++ evs |}.

(* ================================================================== *)
(** ** State and exception monad *)

Definition M (A : Type) : Type := State -> result A * State.

Definition ret {A} (a : A) : M A := fun st => (Ok a, st).

Definition raise {A} (e : exn) : M A := fun st => (Raise e, st).

Definition bind {A B} (c : M A) (k : A -> M B) : M B :=
  fun st =>
    match c st with
    | (Ok a, st') => k a st'
    | (Raise e, st') => (Raise e, st')
    end.

Definition lift {A} (r : result A) : M A := fun st => (r, st).

Notation "x <- c ;; k" := (bind c (fun x => k))
  (at level 61, c at next level, right associativity).
Notation "c ;; k" := (bind c (fun _ => k))
  (at level 61, right associativity).

(** [try: body  except Exception as e: handler e]. *)
Definition try_except {A} (body : M A) (handler : exn -> M A) : M A :=
  fun st =>
    match body st with
    | (Ok a, st') => (Ok a, st')
    | (Raise e, st') => handler e st'
    end.

(** [try: body  finally: fin]. *)
Definition try_finally {A} (body : M A) (fin : M unit) : M A :=
  fun st =>
    match body st with
    | (r, st') =>
        match fin st' with
        | (Ok _, st'') => (r, st'')
        | (Raise e, st'') => (Raise e, st'')
        end
    end.

(** [for x in xs: body x]. *)
Fixpoint for_each {A} (xs : list A) (body : A -> M unit) : M unit :=
  match xs with
  | [] => ret tt
  | x :: rest => body x ;; for_each rest body
  end.

Definition print (m : message) : M unit :=
  fun st => (Ok tt, log [EvPrint m] st).

Definition sleep (milliseconds : Z) : M unit :=
  fun st => (Ok tt, log [EvSleep milliseconds] st).

(** Logical time advances when control passes a loop boundary. *)
Definition next_tick : M unit :=
  fun st => (Ok tt, set_tick (S (tick st)) st).

Section World.

Variable env : Env.

(** One request to the node; the attempt is traced whatever the answer. *)
Definition rpc {A} (req : rpc_request) (answer : ChainReader -> result A) : M A :=
  fun st => (answer (chain env (tick st)), log [EvRpc req] st).

(** [Base.metadata.create_all(engine)]: creates the table from the
    declared columns unless it is already there. *)
Definition create_all (declared : list column) : M unit :=
  fun st =>
    match db_fault env (tick st) with
    | Some e => (Raise e, st)
    | None => (Ok tt, if table_exists st then st else set_table declared st)
    end.

(** [self.Session()]. *)
Definition Session : M unit :=
  fun st => (Ok tt, set_pending [] st).

(** [session.query(func.count(VaultMetric.id)).scalar()]: [id] is the
    primary key, so every row counts. *)
Definition query_count : M Z :=
  fun st =>
    match db_fault env (tick st) with
    | Some e => (Raise e, log [EvQueryCount] st)
    | None => (Ok (Z.of_nat (List.length (rows st))), log [EvQueryCount] st)
    end.

Definition session_add (m : VaultMetric) : M unit :=
  fun st => (Ok tt, set_pending (pending st ++ [m]) st).

(** [session.commit()]; the value is the flushed objects as stored,
    which is what the attributes of the added objects read afterwards. *)
Definition session_commit : M (list VaultMetric) :=
  fun st =>
    match db_fault env (tick st) with
    | Some e => (Raise e, st)
    | None =>
        match flush (db_schema st) (wall_clock env (tick st)) (rows st)
                (next_id st) (pending st) with
        | Ok (rows', stored, next') =>
            (Ok stored,
             log (map EvInsert stored) (set_pending [] (set_rows rows' next' st)))
        | Raise e => (Raise e, st)
        end
    end.

Definition session_rollback : M unit :=
  fun st => (Ok tt, log [EvRollback] (set_pending [] st)).

Definition session_close : M unit :=
  fun st => (Ok tt, set_pending [] st).

End World.

(* ================================================================== *)
(** ** [etl_with_history.py] *)

Module EtlHistory.

Record Config : Type := {
  RPC_URL : string;
  DB_URL : option string;
  PROXY_ADDRESS : string;
  DEPLOYMENT_BLOCK : Z
}.

(** The module-level statements: both URLs are read from the process
    environment, only [RPC_URL] is tested. *)
Definition module_init (getenv : string -> option string) : result Config :=
  let rpc_url := getenv "RPC_URL" in
  let db_url := getenv "DB_URL" in
  if negb (truthy rpc_url)
  then Raise (ValueError "RPC_URL не найден в переменных окружения!")
  else Ok {| RPC_URL := match rpc_url with Some s => s | None => "" end;
             DB_URL := db_url;
             PROXY_ADDRESS := "0x8ECC0B419dfe3AE197BC96f2a03636b5E1BE91db";
             DEPLOYMENT_BLOCK := 23356156 |}.

(** The [return VaultMetric(...)] expression of [get_data_at_block]:
    keyword arguments are evaluated left to right and
    [raw_total_assets] is not among them. *)
Definition build_metric (raw_assets raw_supply decimals block_number dt : Z)
    : result VaultMetric :=
  letR scale := int_pow 10 decimals in
  letR tvl := int_truediv raw_assets scale in
  letR price := (if raw_supply >? 0 then int_truediv raw_assets raw_supply
                 else Ok float_one) in
  Ok {| id := None;
        timestamp := Some dt;
        block_number := Some block_number;
        tvl_assets := Some tvl;
        share_price := Some price;
        raw_total_assets := None |}.

Section Script.

Variable env : Env.
(** [sqlalchemy.create_engine], a library function. *)
Variable create_engine : option string -> result unit.
Variable cfg : Config.

Definition VaultETL_init : M unit :=
  lift (create_engine (DB_URL cfg)) ;;
  create_all env vault_metrics.

Definition get_data_at_block (block_number : Z) : M VaultMetric :=
  raw_assets <- rpc env (ReqTotalAssets (BlockNum block_number))
                  (fun c => totalAssets c (BlockNum block_number)) ;;
  raw_supply <- rpc env (ReqTotalSupply (BlockNum block_number))
                  (fun c => totalSupply c (BlockNum block_number)) ;;
  decimals <- rpc env (ReqDecimals Latest) (fun c => decimals c Latest) ;;
  block_info <- rpc env (ReqGetBlock (BlockNum block_number))
                  (fun c => get_block c (BlockNum block_number)) ;;
  let dt := block_timestamp block_info in
  lift (build_metric raw_assets raw_supply decimals block_number dt).

(** The body of the [for] loop of [backfill_history]. *)
Definition backfill_block (block : Z) : M unit :=
  try_except
    (metric <- get_data_at_block block ;;
     sleep 100 ;;
     session_add metric ;;
     session_commit env ;;
     print (MsgBackfillLoaded block))
    (fun e =>
       session_rollback ;;
       print (MsgBackfillError block e)) ;;
  next_tick.

Definition backfill_history (step : Z) : M unit :=
  Session ;;
  count <- query_count env ;;
  (if count =? 0 then
     print MsgBackfillStart ;;
     head <- rpc env (ReqGetBlock Latest) (fun c => get_block c Latest) ;;
     let current_block := number head in
     blocks <- lift (py_range (DEPLOYMENT_BLOCK cfg) current_block step) ;;
     next_tick ;;
     for_each blocks backfill_block ;;
     print MsgBackfillDone
   else
     print (MsgBackfillSkip count)) ;;
  session_close.

(** The handler of [run_live]: errors whose text mentions a unique
    constraint are not printed. *)
Definition live_handler (e : exn) : M unit :=
  session_rollback ;;
  if negb (contains "unique constraint" (lower (str_exn e)))
  then print (MsgLiveError e)
  else ret tt.

(** One turn of the [while True] loop of [run_live]. *)
Definition run_live_iteration (interval : Z) : M unit :=
  Session ;;
  try_finally
    (try_except
       (latest <- rpc env (ReqGetBlock Latest) (fun c => get_block c Latest) ;;
        let latest_block := number latest in
        metric <- get_data_at_block latest_block ;;
        session_add metric ;;
        session_commit env ;;
        print (MsgLiveMetric (timestamp metric) (tvl_assets metric)))
       live_handler)
    session_close ;;
  sleep (interval * 1000) ;;
  next_tick.

(** [while True] has no exit of its own: [fuel] turns are run, and the
    value [Ok tt] means the loop is still going. *)
Fixpoint run_live_loop (fuel : nat) (interval : Z) : M unit :=
  match fuel with
  | O => ret tt
  | S n => run_live_iteration interval ;; run_live_loop n interval
  end.

Definition run_live (fuel : nat) (interval : Z) : M unit :=
  print MsgLiveStart ;;
  run_live_loop fuel interval.

(** The [__main__] block. *)
Definition main (fuel : nat) : M unit :=
  VaultETL_init ;;
  backfill_history 50000 ;;
  run_live fuel 300.

End Script.

(** Running the file: module-level statements, then [__main__]. *)
Definition program (env : Env) (create_engine : option string -> result unit)
    (getenv : string -> option string) (fuel : nat) : M unit :=
  cfg <- lift (module_init getenv) ;;
  main env create_engine cfg fuel.

End EtlHistory.

(* ================================================================== *)
(** ** [etl.py] *)

Module Etl.

(** The transform half of [extract_and_transform]. *)
Definition build_metric (raw_assets raw_supply decimals latest_number : Z)
    : result VaultMetric :=
  letR scale := int_pow 10 decimals in
  letR tvl_normalized := int_truediv raw_assets scale in
  letR share_price := (if raw_supply >? 0 then int_truediv raw_assets raw_supply
                       else Ok float_one) in
  Ok {| id := None;
        timestamp := None;
        block_number := Some latest_number;
        tvl_assets := Some tvl_normalized;
        share_price := Some share_price;
        raw_total_assets := Some (str_int raw_assets) |}.

Section Script.

Variable env : Env.
Variable create_engine : option string -> result unit.
(** The connection string, a literal in the script. *)
Variable DB_URL : string.

Definition VaultETL_init : M unit :=
  lift (create_engine (Some DB_URL)) ;;
  create_all env vault_metrics.

Definition extract_and_transform : M VaultMetric :=
  latest_block <- rpc env (ReqGetBlock Latest) (fun c => get_block c Latest) ;;
  raw_assets <- rpc env (ReqTotalAssets Latest) (fun c => totalAssets c Latest) ;;
  raw_supply <- rpc env (ReqTotalSupply Latest) (fun c => totalSupply c Latest) ;;
  decimals <- rpc env (ReqDecimals Latest) (fun c => decimals c Latest) ;;
  lift (build_metric raw_assets raw_supply decimals (number latest_block)).

Definition load (metric_obj : VaultMetric) : M unit :=
  Session ;;
  try_finally
    (try_except
       (session_add metric_obj ;;
        stored <- session_commit env ;;
        let m := hd metric_obj stored in
        print (MsgLoaded (timestamp m) (block_number m) (tvl_assets m)
                 (share_price m)))
       (fun e =>
          session_rollback ;;
          print (MsgLoadError e)))
    session_close.

(** One turn of the [while True] loop of [run]. *)
Definition run_iteration (interval : Z) : M unit :=
  metric <- extract_and_transform ;;
  load metric ;;
  sleep (interval * 1000) ;;
  next_tick.

Fixpoint run_loop (fuel : nat) (interval : Z) : M unit :=
  match fuel with
  | O => ret tt
  | S n => run_iteration interval ;; run_loop n interval
  end.

Definition run (fuel : nat) (interval : Z) : M unit :=
  print MsgRunStart ;;
  run_loop fuel interval.

Definition main (fuel : nat) : M unit :=
  VaultETL_init ;;
  run fuel 300.

End Script.

End Etl.

(* ================================================================== *)
(** ** Worlds used in the examples *)

(** A node that answers every request: head at [head], fixed reads. *)
Definition steady_reader (head raw_assets raw_supply dec : Z) : ChainReader :=
  {| get_block := fun b =>
       match b with
       | Latest => Ok {| number := head; block_timestamp := 1700000000 + head |}
       | BlockNum n => Ok {| number := n; block_timestamp := 1700000000 + n |}
       end;
     totalAssets := fun _ => Ok raw_assets;
     totalSupply := fun _ => Ok raw_supply;
     decimals := fun _ => Ok dec |}.

(** The same node, except that reading [totalAssets] at block [bad] fails. *)
Definition reader_failing_at (bad : Z) (r : ChainReader) : ChainReader :=
  {| get_block := get_block r;
     totalAssets := fun b =>
       match b with
       | BlockNum n => if n =? bad then Raise (RpcError "header not found")
                       else totalAssets r b
       | Latest => totalAssets r b
       end;
     totalSupply := totalSupply r;
     decimals := decimals r |}.

(** A node that is unreachable. *)
Definition dead_reader : ChainReader :=
  {| get_block := fun _ => Raise (RpcError "connection refused");
     totalAssets := fun _ => Raise (RpcError "connection refused");
     totalSupply := fun _ => Raise (RpcError "connection refused");
     decimals := fun _ => Raise (RpcError "connection refused") |}.

Definition world (r : nat -> ChainReader) : Env :=
  {| chain := r; db_fault := fun _ => None;
     wall_clock := fun t => 1700000000 + Z.of_nat t * 300 |}.

Definition example_env : Env :=
  world (fun _ => steady_reader 350 1500000000 1000000000 9).

(** The store right after [create_all] on a fresh database. *)
Definition empty_store : State := set_table vault_metrics initial_state.

(** The table as it would be with a unique [block_number], which the
    scripts do not declare. *)
Definition vault_metrics_unique_block : list column :=
  map (fun c => if String.eqb (col_name c) "block_number"
                then {| col_name := col_name c; col_type := col_type c;
                        col_get := col_get c; primary_key := primary_key c;
                        unique := true |}
                else c) vault_metrics.

Definition empty_store_unique_block : State :=
  set_table vault_metrics_unique_block initial_state.

Definition example_cfg (deployment : Z) : EtlHistory.Config :=
  {| EtlHistory.RPC_URL := "http://localhost:8545";
     EtlHistory.DB_URL := Some "postgresql://localhost/vault";
     EtlHistory.PROXY_ADDRESS := "0x8ECC0B419dfe3AE197BC96f2a03636b5E1BE91db";
     EtlHistory.DEPLOYMENT_BLOCK := deployment |}.

(** A [create_engine] that rejects a missing or empty URL, as
    SQLAlchemy's does. *)
Definition strict_create_engine (url : option string) : result unit :=
  if truthy url then Ok tt
  else Raise (ArgumentError "Expected string or URL object, got None").

(** Projections of a state used in the statements. *)
Definition stored_blocks (st : State) : list (option Z) :=
  map block_number (rows st).

Definition sampled_block (ev : event) : option Z :=
  match ev with
  | EvRpc (ReqTotalAssets (BlockNum b)) => Some b
  | _ => None
  end.

Fixpoint sampled_blocks (t : list event) : list Z :=
  match t with
  | [] => []
  | ev :: rest =>
      match sampled_block ev with
      | Some b => b :: sampled_blocks rest
      | None => sampled_blocks rest
      end
  end.

Definition is_rpc (ev : event) : bool :=
  match ev with EvRpc _ => true | _ => false end.

Definition is_insert (ev : event) : bool :=
  match ev with EvInsert _ => true | _ => false end.

Definition is_error_print (ev : event) : bool :=
  match ev with
  | EvPrint (MsgLiveError _) | EvPrint (MsgLoadError _)
  | EvPrint (MsgBackfillError _ _) => true
  | _ => false
  end.

Definition rows_at_block (b : Z) (st : State) : list VaultMetric :=
  filter (fun m => match block_number m with
                   | Some n => n =? b
                   | None => false
                   end) (rows st).

(** The value [get_data_at_block] computes from the node's answers, the
    reads short-circuiting in program order. *)
Definition sample (c : ChainReader) (b : Z) : result VaultMetric :=
  letR raw_assets := totalAssets c (BlockNum b) in
  letR raw_supply := totalSupply c (BlockNum b) in
  letR dec := decimals c Latest in
  letR info := get_block c (BlockNum b) in
  EtlHistory.build_metric raw_assets raw_supply dec b (block_timestamp info).

(** A stride block goes through when its reads, its transform and its
    insert all succeed at the time it is visited. *)
Definition block_ok (env : Env) (t : nat) (b : Z) : bool :=
  match sample (chain env t) b, db_fault env t with
  | Ok _, None => true
  | _, _ => false
  end.

Fixpoint expected_blocks (env : Env) (t : nat) (blocks : list Z) : list Z :=
  match blocks with
  | [] => []
  | b :: rest =>
      (if block_ok env t b then [b] else []) ++ expected_blocks env (S t) rest
  end.

(** The blocks the backfill visits for a given chain head. *)
Definition stride_blocks (cfg : EtlHistory.Config) (head step : Z) : list Z :=
  range_items (EtlHistory.DEPLOYMENT_BLOCK cfg) step
    (Z.to_nat (range_length (EtlHistory.DEPLOYMENT_BLOCK cfg) head step)).

(** A node that is down during the second turn only. *)
Definition flaky_env : Env :=
  world (fun t => if Nat.eqb t 1 then dead_reader
                  else steady_reader (350 + Z.of_nat t) 1500000000 1000000000 9).

(** Every stored id is below the sequence's next value. *)
Definition ids_below (next : Z) (rs : list VaultMetric) : Prop :=
  Forall (fun m => match id m with Some i => i < next | None => True end) rs.

(** The metric built from the worked example's reads at block 100. *)
Definition example_metric : VaultMetric :=
  {| id := None; timestamp := Some 0; block_number := Some 100;
     tvl_assets := Some float_three_halves;
     share_price := Some float_three_halves;
     raw_total_assets := None |}.

(** The store after a first backfill of the example chain. *)
Definition populated_store : State :=
  snd (EtlHistory.backfill_history example_env (example_cfg 100) 100 empty_store).

(* ================================================================== *)
(** ** Notions used in the proofs about rounding *)

(** [num/den] lies in [[m, m+1)] at location [l]. *)
Definition inbetween (m : Z) (l : location) (num den : Z) : Prop :=
  match l with
  | loc_Exact => num = m * den
  | loc_Inexact c =>
      m * den < num < (m + 1) * den /\ (2 * num ?= (2 * m + 1) * den) = c
  end.

Definition inb_rec (mrs : shr_record) (num den : Z) : Prop :=
  inbetween (shr_m mrs) (loc_of_shr_record mrs) num den.

(* ================================================================== *)
(** ** Notions used by the further properties *)

(** The value [extract_and_transform] computes from the node's answers,
    the reads short-circuiting in program order. *)
Definition sample_latest (c : ChainReader) : result VaultMetric :=
  letR latest_block := get_block c Latest in
  letR raw_assets := totalAssets c Latest in
  letR raw_supply := totalSupply c Latest in
  letR dec := decimals c Latest in
  Etl.build_metric raw_assets raw_supply dec (number latest_block).

(** The requests [get_data_at_block] sends for block [b]: each read is
    sent only if the one before it was answered. *)
Definition sample_requests (c : ChainReader) (b : Z) : list rpc_request :=
  ReqTotalAssets (BlockNum b) ::
  match totalAssets c (BlockNum b) with
  | Raise _ => []
  | Ok _ =>
      ReqTotalSupply (BlockNum b) ::
      match totalSupply c (BlockNum b) with
      | Raise _ => []
      | Ok _ =>
          ReqDecimals Latest ::
          match decimals c Latest with
          | Raise _ => []
          | Ok _ => [ReqGetBlock (BlockNum b)]
          end
      end
  end.

(** The requests found in a trace, and its pauses in milliseconds. *)
Fixpoint requests (t : list event) : list rpc_request :=
  match t with
  | [] => []
  | EvRpc r :: rest => r :: requests rest
  | _ :: rest => requests rest
  end.

Fixpoint sleeps (t : list event) : list Z :=
  match t with
  | [] => []
  | EvSleep ms :: rest => ms :: sleeps rest
  | _ :: rest => sleeps rest
  end.

Fixpoint printed (t : list event) : list message :=
  match t with
  | [] => []
  | EvPrint m :: rest => m :: printed rest
  | _ :: rest => printed rest
  end.

(** The stride blocks whose reads and transform succeed when visited. *)
Definition sample_ok (env : Env) (t : nat) (b : Z) : bool :=
  match sample (chain env t) b with Ok _ => true | Raise _ => false end.

Fixpoint sampled_ok (env : Env) (t : nat) (blocks : list Z) : list Z :=
  match blocks with
  | [] => []
  | b :: rest =>
      (if sample_ok env t b then [b] else []) ++ sampled_ok env (S t) rest
  end.

(** A request made while sampling block [b] is for that block, or for the
    decimals at the head. *)
Definition request_for (b : Z) (r : rpc_request) : Prop :=
  r = ReqTotalAssets (BlockNum b) \/ r = ReqTotalSupply (BlockNum b)
  \/ r = ReqDecimals Latest \/ r = ReqGetBlock (BlockNum b).

(** The state in which [backfill_history] enters its loop on an empty
    table: a fresh session, the count query, the start message and the
    head request in the trace, one tick later. *)
Definition backfill_entry (st : State) : State :=
  set_tick (S (tick st))
    (log [EvRpc (ReqGetBlock Latest)]
       (log [EvPrint MsgBackfillStart]
          (log [EvQueryCount] (set_pending [] st)))).

(** A turn of [run_live] goes through when the head read, the sample of
    the head block and the store all answer. *)
Definition live_ok (env : Env) (t : nat) : bool :=
  match get_block (chain env t) Latest with
  | Ok head => block_ok env t (number head)
  | Raise _ => false
  end.

(** A float that is neither negative, infinite nor NaN. *)
Definition nonneg_finite (f : float) : bool :=
  match f with
  | S754_zero false => true
  | S754_finite false m e => bounded prec emax m e
  | _ => false
  end.

(** What the startup of [etl_with_history.py] needs in order to reach the
    live loop from state [st]. *)
Definition startup_ok (env : Env) (create_engine : option string -> result unit)
    (getenv : string -> option string) (st : State) : Prop :=
  truthy (getenv "RPC_URL") = true
  /\ create_engine (getenv "DB_URL") = Ok tt
  /\ db_fault env (tick st) = None
  /\ (rows st = [] ->
      exists head, get_block (chain env (tick st)) Latest = Ok head).

(* ================================================================== *)
(** * Properties *)

(** ** Integer true division is correctly rounded *)

(** *** Binary digits *)

Lemma pow2_pos e : 0 <= e -> 0 < 2 ^ e.
Proof. intros. apply Z.pow_pos_nonneg; lia. Qed.

Lemma pow2_S e : 0 <= e -> 2 ^ (e + 1) = 2 * 2 ^ e.
Proof. intros. rewrite Z.pow_add_r by lia. lia. Qed.

Lemma pow2_le e1 e2 : 0 <= e1 <= e2 -> 2 ^ e1 <= 2 ^ e2.
Proof. intros. apply Z.pow_le_mono_r; lia. Qed.

Lemma pow2_lt e1 e2 : 0 <= e1 < e2 -> 2 ^ e1 < 2 ^ e2.
Proof. intros. apply Z.pow_lt_mono_r; lia. Qed.

Lemma digits2_pos_bounds p :
  2 ^ (Z.pos (digits2_pos p) - 1) <= Z.pos p < 2 ^ Z.pos (digits2_pos p).
Proof.
  induction p as [p IH|p IH|]; cbn [digits2_pos].
  - rewrite Pos2Z.inj_succ.
    replace (Z.succ (Z.pos (digits2_pos p)) - 1) with (Z.pos (digits2_pos p) - 1 + 1) by lia.
    unfold Z.succ. rewrite !pow2_S by lia. lia.
  - rewrite Pos2Z.inj_succ.
    replace (Z.succ (Z.pos (digits2_pos p)) - 1) with (Z.pos (digits2_pos p) - 1 + 1) by lia.
    unfold Z.succ. rewrite !pow2_S by lia. lia.
  - simpl. lia.
Qed.

Lemma Zdigits2_bounds m :
  0 < m -> 0 < Zdigits2 m /\ 2 ^ (Zdigits2 m - 1) <= m < 2 ^ Zdigits2 m.
Proof.
  destruct m as [|p|p]; try lia. intros _. simpl. split; [lia|].
  apply digits2_pos_bounds.
Qed.

Lemma Zdigits2_unique m k :
  0 < m -> 2 ^ (k - 1) <= m < 2 ^ k -> Zdigits2 m = k.
Proof.
  intros Hm [Hlo Hhi].
  destruct (Zdigits2_bounds m Hm) as (Hd & Hlo' & Hhi').
  assert (0 < k).
  { destruct (Z_lt_le_dec 0 k); auto.
    assert (2 ^ k <= 1).
    { destruct (Z.eq_dec k 0); [subst; simpl; lia|].
      rewrite Z.pow_neg_r by lia. lia. }
    lia. }
  destruct (Z_lt_le_dec (Zdigits2 m) k).
  - assert (2 ^ Zdigits2 m <= 2 ^ (k - 1)) by (apply pow2_le; lia). lia.
  - destruct (Z_lt_le_dec k (Zdigits2 m)); [|lia].
    assert (2 ^ k <= 2 ^ (Zdigits2 m - 1)) by (apply pow2_le; lia). lia.
Qed.

Lemma Zdigits2_0 : Zdigits2 0 = 0.
Proof. reflexivity. Qed.

Lemma Zdigits2_nonneg m : 0 <= m -> 0 <= Zdigits2 m.
Proof. destruct m; simpl; lia. Qed.

(** *** Locations *)

Lemma new_location_spec b r :
  0 < b -> 0 <= r < b ->
  new_location b r = if r =? 0 then loc_Exact else loc_Inexact (2 * r ?= b).
Proof.
  intros Hb Hr. unfold new_location, new_location_even, new_location_odd.
  destruct (Z.even b) eqn:Ev; cbv beta;
    destruct (Z.eqb_spec r 0); try reflexivity.
  f_equal.
  assert (Hodd : Z.odd b = true) by (rewrite <- Z.negb_even, Ev; reflexivity).
  apply Z.odd_spec in Hodd. destruct Hodd as [k Hk].
  destruct (Z.compare_spec (2 * r + 1) b); destruct (Z.compare_spec (2 * r) b);
    try reflexivity; lia.
Qed.

Lemma div_inbetween a b :
  0 <= a -> 0 < b ->
  inbetween (a / b) (new_location b (a mod b)) a b.
Proof.
  intros Ha Hb.
  pose proof (Z.div_mod a b ltac:(lia)) as Hd.
  pose proof (Z.mod_pos_bound a b Hb) as Hm.
  rewrite new_location_spec by assumption.
  destruct (Z.eqb_spec (a mod b) 0) as [E|E]; unfold inbetween.
  - lia.
  - split; [nia|].
    destruct (Z.compare_spec (2 * (a mod b)) b);
      [apply Z.compare_eq_iff|apply Z.compare_lt_iff|apply Z.compare_gt_iff]; nia.
Qed.

Lemma loc_of_shr_record_of_loc m l :
  loc_of_shr_record (shr_record_of_loc m l) = l
  /\ shr_m (shr_record_of_loc m l) = m.
Proof. destruct l as [|[]]; simpl; auto. Qed.

Lemma shr_1_spec mrs num den :
  0 <= shr_m mrs -> 0 < den -> inb_rec mrs num den ->
  inb_rec (shr_1 mrs) num (2 * den)
  /\ shr_m (shr_1 mrs) = shr_m mrs / 2.
Proof.
  destruct mrs as [m r s]. unfold inb_rec. cbn [shr_m]. intros Hm Hden H.
  assert (Hdiv : forall p, Z.pos p~0 / 2 = Z.pos p /\ Z.pos p~1 / 2 = Z.pos p).
  { intros p. split; Z.div_mod_to_equations; lia. }
  assert (H1 : 1 / 2 = 0) by reflexivity.
  assert (H0 : 0 / 2 = 0) by reflexivity.
  destruct m as [|[p|p|]|p]; try lia;
    destruct r, s;
    cbn [shr_1 shr_m loc_of_shr_record inbetween orb] in *;
    repeat match goal with
           | H : _ /\ _ |- _ => destruct H
           | H : (_ ?= _) = Lt |- _ => apply Z.compare_lt_iff in H
           | H : (_ ?= _) = Gt |- _ => apply Z.compare_gt_iff in H
           | H : (_ ?= _) = Eq |- _ => apply Z.compare_eq_iff in H
           end;
    (split; [| first [exact H0 | exact H1 | symmetry; apply Hdiv | idtac]]);
    try (split; [lia|]);
    try (apply Z.compare_lt_iff; lia);
    try (apply Z.compare_gt_iff; lia);
    try (apply Z.compare_eq_iff; lia);
    try lia.
Qed.

Lemma iter_pos_nat {A} (f : A -> A) p : forall x,
  iter_pos f p x = Nat.iter (Pos.to_nat p) f x.
Proof.
  induction p as [p IH|p IH|]; intros x; cbn [iter_pos].
  - rewrite !IH.
    replace (Pos.to_nat p~1) with (Pos.to_nat p + S (Pos.to_nat p))%nat by lia.
    rewrite Nat.iter_add, Nat.iter_succ_r. reflexivity.
  - rewrite !IH.
    replace (Pos.to_nat p~0) with (Pos.to_nat p + Pos.to_nat p)%nat by lia.
    rewrite Nat.iter_add. reflexivity.
  - reflexivity.
Qed.

Lemma shr_1_iter n : forall mrs num den,
  0 <= shr_m mrs -> 0 < den -> inb_rec mrs num den ->
  inb_rec (Nat.iter n shr_1 mrs) num (2 ^ Z.of_nat n * den)
  /\ shr_m (Nat.iter n shr_1 mrs) = shr_m mrs / 2 ^ Z.of_nat n
  /\ 0 <= shr_m (Nat.iter n shr_1 mrs).
Proof.
  induction n as [|n IH]; intros mrs num den Hm Hden H.
  - simpl. rewrite Z.div_1_r. replace (1 * den) with den by lia.
    (destruct den; try lia); auto.
  - destruct (IH mrs num den Hm Hden H) as (Hi & Hs & Hn).
    pose proof (pow2_pos (Z.of_nat n) ltac:(lia)) as Hp.
    destruct (shr_1_spec (Nat.iter n shr_1 mrs) num (2 ^ Z.of_nat n * den))
      as [Hi' Hs']; [assumption|nia|assumption|].
    change (Nat.iter (S n) shr_1 mrs) with (shr_1 (Nat.iter n shr_1 mrs)).
    rewrite Nat2Z.inj_succ. unfold Z.succ.
    rewrite pow2_S by lia. split; [|split].
    + replace (2 * 2 ^ Z.of_nat n * den) with (2 * (2 ^ Z.of_nat n * den)) by lia.
      exact Hi'.
    + rewrite Hs', Hs, Z.div_div by lia. f_equal. lia.
    + rewrite Hs'. apply Z.div_pos; lia.
Qed.

(** A right shift by [n] places keeps the location of [num/den] when the
    denominator is scaled by [2^n]. *)
Lemma shr_spec m l e n num den :
  0 <= m -> 0 < den -> 0 <= n -> inbetween m l num den ->
  exists mrs,
    shr (shr_record_of_loc m l) e n = (mrs, e + n)
    /\ inb_rec mrs num (2 ^ n * den)
    /\ shr_m mrs = m / 2 ^ n.
Proof.
  intros Hm Hden Hn H.
  destruct (loc_of_shr_record_of_loc m l) as [Hl Hsm].
  destruct n as [|p|p]; try lia; unfold shr.
  - exists (shr_record_of_loc m l). rewrite Z.add_0_r, Z.div_1_r.
    unfold inb_rec. rewrite Hl, Hsm.
    replace (2 ^ 0 * den) with den by (rewrite Z.pow_0_r; lia). auto.
  - exists (iter_pos shr_1 p (shr_record_of_loc m l)).
    rewrite iter_pos_nat.
    destruct (shr_1_iter (Pos.to_nat p) (shr_record_of_loc m l) num den)
      as (Hi & Hs & _).
    { now rewrite Hsm. } { assumption. }
    { unfold inb_rec. now rewrite Hl, Hsm. }
    rewrite positive_nat_Z in Hi, Hs. rewrite Hsm in Hs. auto.
Qed.

Lemma round_nearest_even_spec m l num den :
  0 < den -> inbetween m l num den ->
  let m' := round_nearest_even m l in
  (m' = m \/ m' = m + 1)
  /\ 2 * Z.abs (m' * den - num) <= den
  /\ (forall k, num = k * den -> m' = k).
Proof.
  intros Hden H. cbv zeta.
  destruct l as [|[]]; cbn [round_nearest_even inbetween] in *.
  - split; [auto|]. split; [lia|]. intros k Hk. nia.
  - destruct H as [Hb Hc]. apply Z.compare_eq_iff in Hc.
    destruct (Z.even m); (split; [auto|]); (split; [lia|]); intros k Hk; nia.
  - destruct H as [Hb Hc]. apply -> Z.compare_lt_iff in Hc.
    split; [auto|]. split; [lia|]. intros k Hk. nia.
  - destruct H as [Hb Hc]. apply -> Z.compare_gt_iff in Hc.
    split; [auto|]. split; [lia|]. intros k Hk. nia.
Qed.

Lemma fexp_eq x : fexp prec emax x = Z.max (x - 53) (-1074).
Proof. reflexivity. Qed.

Lemma shr_nonpos mrs e n : n <= 0 -> shr mrs e n = (mrs, e).
Proof. destruct n; try reflexivity. lia. Qed.

Lemma div_pow2_bounds m d n :
  0 <= n -> 0 <= d ->
  (m < 2 ^ (d + n) -> m / 2 ^ n < 2 ^ d)
  /\ (2 ^ (d + n) <= m -> 2 ^ d <= m / 2 ^ n).
Proof.
  intros Hn Hd. pose proof (pow2_pos n Hn) as Hp.
  rewrite Z.pow_add_r by lia. split; intros H.
  - apply Z.div_lt_upper_bound; lia.
  - apply Z.div_le_lower_bound; lia.
Qed.

Lemma binary_round_aux_spec mx ex lx num den :
  0 <= mx -> 0 < den -> inbetween mx lx num den ->
  ex <= fexp prec emax (Zdigits2 mx + ex) ->
  let e1 := fexp prec emax (Zdigits2 mx + ex) in
  let den1 := 2 ^ (e1 - ex) * den in
  exists m2,
    0 <= m2 <= 2 ^ 53
    /\ (-1074 < e1 -> 2 ^ 52 <= m2)
    /\ 2 * Z.abs (m2 * den1 - num) <= den1
    /\ (forall k, num = k * den1 -> m2 = k)
    /\ binary_round_aux prec emax false mx ex lx
       = (if m2 =? 0 then S754_zero false
          else if m2 =? 2 ^ 53
               then (if e1 + 1 <=? 971
                     then S754_finite false 4503599627370496 (e1 + 1)
                     else S754_infinity false)
               else if e1 <=? 971 then S754_finite false (Z.to_pos m2) e1
                    else S754_infinity false).
Proof.
  intros Hmx Hden Hin Hpre e1 den1.
  assert (He1 : -1074 <= e1) by (unfold e1; rewrite fexp_eq; lia).
  assert (Hn1 : 0 <= e1 - ex) by (unfold e1; lia).
  destruct (shr_spec mx lx ex (e1 - ex) num den Hmx Hden Hn1 Hin)
    as (mrs1 & Hshr1 & Hin1 & Hm1).
  replace (ex + (e1 - ex)) with e1 in Hshr1 by lia.
  fold den1 in Hin1.
  assert (Hden1 : 0 < den1).
  { unfold den1. pose proof (pow2_pos (e1 - ex) Hn1). nia. }
  destruct (round_nearest_even_spec _ _ _ _ Hden1 Hin1) as (Hm2 & Herr & Hex).
  set (m2 := round_nearest_even (shr_m mrs1) (loc_of_shr_record mrs1)) in *.
  assert (Hm1pos : 0 <= shr_m mrs1).
  { rewrite Hm1. apply Z.div_pos; [lia|]. now apply pow2_pos. }
  (* size of the shifted mantissa *)
  assert (Hm1hi : shr_m mrs1 < 2 ^ 53).
  { rewrite Hm1.
    destruct (Z.eq_dec mx 0) as [->|Hnz].
    - rewrite Z.div_0_l; [reflexivity|]. pose proof (pow2_pos _ Hn1). lia.
    - destruct (Zdigits2_bounds mx ltac:(lia)) as (Hd & _ & Hhi).
      apply (div_pow2_bounds mx 53 (e1 - ex)); [lia|lia|].
      eapply Z.lt_le_trans; [exact Hhi|].
      apply pow2_le. unfold e1. rewrite fexp_eq. lia. }
  assert (Hm1lo : -1074 < e1 -> 2 ^ 52 <= shr_m mrs1).
  { intros Hn. rewrite Hm1.
    assert (Hd53 : Zdigits2 mx + ex - 53 = e1)
      by (unfold e1 in *; rewrite fexp_eq in *; lia).
    destruct (Z.eq_dec mx 0) as [->|Hnz].
    { rewrite Zdigits2_0 in Hd53. lia. }
    destruct (Zdigits2_bounds mx ltac:(lia)) as (Hd & Hlo & _).
    apply (div_pow2_bounds mx 52 (e1 - ex)); [lia|lia|].
    replace (52 + (e1 - ex)) with (Zdigits2 mx - 1) by lia. exact Hlo. }
  exists m2.
  split; [lia|]. split; [intros H; specialize (Hm1lo H); lia|].
  split; [exact Herr|]. split; [exact Hex|].
  unfold binary_round_aux, shr_fexp. fold e1. rewrite Hshr1. fold m2.
  destruct (Z.eqb_spec m2 0) as [E0|E0].
  { rewrite E0. rewrite Zdigits2_0, shr_nonpos; [reflexivity|].
    rewrite fexp_eq. lia. }
  destruct (Z.eqb_spec m2 (2 ^ 53)) as [E53|E53].
  { rewrite E53. change (Zdigits2 (2 ^ 53)) with 54.
    replace (fexp prec emax (54 + e1) - e1) with 1 by (rewrite fexp_eq; lia).
    cbn. reflexivity. }
  assert (Hd2 : Zdigits2 m2 <= 53).
  { destruct (Zdigits2_bounds m2 ltac:(lia)) as (Hd & Hlo & _).
    destruct (Z_le_gt_dec (Zdigits2 m2) 53); [assumption|].
    assert (2 ^ 53 <= 2 ^ (Zdigits2 m2 - 1)) by (apply pow2_le; lia). lia. }
  rewrite shr_nonpos by (rewrite fexp_eq; lia).
  cbn [shr_m shr_record_of_loc].
  destruct m2 as [|p|p]; try lia. reflexivity.
Qed.

Lemma div_core_spec a b :
  0 < a -> 0 < b ->
  let E := Z.min (fexp prec emax (Zdigits2 a - Zdigits2 b)) 0 in
  exists q l,
    SFdiv_core_binary prec emax a 0 b 0 = (q, E, l)
    /\ q = (a * 2 ^ (- E)) / b
    /\ inbetween q l (a * 2 ^ (- E)) b
    /\ E <= fexp prec emax (Zdigits2 q + E).
Proof.
  intros Ha Hb E.
  assert (HE : -1074 <= E <= 0) by (unfold E; rewrite fexp_eq; lia).
  assert (HEdef : E = Z.min (Z.max (Zdigits2 a - Zdigits2 b - 53) (-1074)) 0)
    by reflexivity.
  assert (Hcore0 : SFdiv_core_binary prec emax a 0 b 0
                  = (let '(q, r) := Z.div_eucl
                                      match 0 - 0 - E with
                                      | Z.pos _ => Z.shiftl a (0 - 0 - E)
                                      | 0 => a
                                      | Z.neg _ => 0
                                      end b in
                     (q, E, new_location b r))).
  { unfold SFdiv_core_binary. cbv zeta. rewrite !Z.add_0_r. reflexivity. }
  clearbody E.
  pose proof (pow2_pos (- E) ltac:(lia)) as Hp.
  assert (Hm' : match 0 - 0 - E with
                | Z.pos _ => Z.shiftl a (0 - 0 - E)
                | 0 => a
                | Z.neg _ => 0
                end = a * 2 ^ (- E)).
  { replace (0 - 0 - E) with (- E) by lia.
    destruct (- E) as [|p|p] eqn:Es;
      [rewrite ?Z.pow_0_r; lia
      |rewrite Z.shiftl_mul_pow2 by lia; reflexivity
      |lia]. }
  rewrite Hcore0, Hm'. clear Hcore0 Hm'.
  pose proof (Z.div_mod (a * 2 ^ (- E)) b ltac:(lia)) as Hd.
  unfold Z.div, Z.modulo in Hd.
  assert (Hq : a * 2 ^ (- E) / b = fst (Z.div_eucl (a * 2 ^ (- E)) b)) by reflexivity.
  assert (Hr : (a * 2 ^ (- E)) mod b = snd (Z.div_eucl (a * 2 ^ (- E)) b)) by reflexivity.
  pose proof (div_inbetween (a * 2 ^ (- E)) b ltac:(nia) Hb) as Hin.
  rewrite Hq, Hr in Hin. rewrite Hq.
  destruct (Z.div_eucl (a * 2 ^ (- E)) b) as [q r]. cbn [fst snd] in *.
  exists q, (new_location b r).
  split; [reflexivity|]. split; [reflexivity|]. split; [exact Hin|].
  (* the quotient is long enough for its exponent *)
  destruct (Z.eq_dec E (-1074)) as [He|Hne]; [rewrite fexp_eq; lia|].
  destruct (Zdigits2_bounds a Ha) as (Hda & Hloa & _).
  destruct (Zdigits2_bounds b Hb) as (Hdb & _ & Hhib).
  set (d1 := Zdigits2 a) in *. set (d2 := Zdigits2 b) in *.
  assert (HEle : E <= d1 - d2 - 53) by lia.
  set (K := d1 - 1 - E - d2).
  assert (HK : 52 <= K) by (unfold K; lia).
  assert (Hqlo : 2 ^ K <= q).
  { subst q. apply Z.div_le_lower_bound; [lia|].
    assert (2 ^ K * 2 ^ d2 = 2 ^ (d1 - 1) * 2 ^ (- E)).
    { rewrite <- !Z.pow_add_r by lia. f_equal. unfold K. lia. }
    pose proof (pow2_pos K ltac:(lia)). nia. }
  assert (Hqpos : 0 < q) by (pose proof (pow2_pos K ltac:(lia)); lia).
  destruct (Zdigits2_bounds q Hqpos) as (Hdq & _ & Hhiq).
  assert (K < Zdigits2 q).
  { destruct (Z_lt_le_dec K (Zdigits2 q)); [assumption|].
    assert (2 ^ Zdigits2 q <= 2 ^ K) by (apply pow2_le; lia). lia. }
  rewrite fexp_eq. unfold K in *. lia.
Qed.

(** The shape of a rounded quotient of positive integers: a canonical
    exponent [e1], a rounded mantissa [m2] at most half a unit away from
    the scaled quotient, and the float they make. *)
Lemma b64_div_shape a b :
  0 < a -> 0 < b ->
  exists E e1 m2,
    -1074 <= E <= 0 /\ E <= e1
    /\ 0 <= m2 <= 2 ^ 53
    /\ (-1074 < e1 -> 2 ^ 52 <= m2)
    /\ 2 * Z.abs (m2 * (2 ^ (e1 - E) * b) - a * 2 ^ (- E)) <= 2 ^ (e1 - E) * b
    /\ (forall k, a * 2 ^ (- E) = k * (2 ^ (e1 - E) * b) -> m2 = k)
    /\ E = Z.min (fexp prec emax (Zdigits2 a - Zdigits2 b)) 0
    /\ e1 = fexp prec emax (Zdigits2 (a * 2 ^ (- E) / b) + E)
    /\ b64_div a b
       = (if m2 =? 0 then S754_zero false
          else if m2 =? 2 ^ 53
               then (if e1 + 1 <=? 971
                     then S754_finite false 4503599627370496 (e1 + 1)
                     else S754_infinity false)
               else if e1 <=? 971 then S754_finite false (Z.to_pos m2) e1
                    else S754_infinity false).
Proof.
  intros Ha Hb.
  destruct (div_core_spec a b Ha Hb) as (q & l & Hcore & Hq & Hin & Hpre).
  set (E := Z.min (fexp prec emax (Zdigits2 a - Zdigits2 b)) 0) in *.
  assert (HE : -1074 <= E <= 0) by (unfold E; rewrite fexp_eq; lia).
  assert (Hq0 : 0 <= q).
  { subst q. apply Z.div_pos; [|lia]. pose proof (pow2_pos (- E) ltac:(lia)). nia. }
  destruct (binary_round_aux_spec q E l (a * 2 ^ (- E)) b Hq0 Hb Hin Hpre)
    as (m2 & Hm2 & Hlo & Herr & Hex & Hres).
  exists E, (fexp prec emax (Zdigits2 q + E)), m2.
  split; [exact HE|]. split; [exact Hpre|]. split; [exact Hm2|].
  split; [exact Hlo|]. split; [exact Herr|]. split; [exact Hex|].
  split; [reflexivity|]. split; [now rewrite Hq|].
  transitivity (binary_round_aux prec emax false q E l); [|exact Hres].
  unfold b64_div.
  destruct a as [|pa|pa]; try lia. destruct b as [|pb|pb]; try lia.
  cbn [Z2SF SFdiv]. rewrite Hcore. reflexivity.
Qed.

Lemma bounded_iff m e :
  bounded prec emax m e = true
  <-> Z.max (Zdigits2 (Z.pos m) + e - 53) (-1074) = e /\ e <= 971.
Proof.
  unfold bounded, canonical_mantissa. rewrite andb_true_iff, Z.eqb_eq, Z.leb_le.
  rewrite fexp_eq. reflexivity.
Qed.

Lemma bounded_from_size m e :
  0 < m < 2 ^ 53 -> (-1074 < e -> 2 ^ 52 <= m) -> -1074 <= e <= 971 ->
  bounded prec emax (Z.to_pos m) e = true.
Proof.
  intros Hm Hlo He. apply bounded_iff. rewrite Z2Pos.id by lia.
  split; [|lia].
  destruct (Zdigits2_bounds m ltac:(lia)) as (Hd & Hl & Hh).
  assert (Zdigits2 m <= 53).
  { destruct (Z_le_gt_dec (Zdigits2 m) 53); [assumption|].
    assert (2 ^ 53 <= 2 ^ (Zdigits2 m - 1)) by (apply pow2_le; lia). lia. }
  destruct (Z.eq_dec e (-1074)); [lia|].
  assert (Zdigits2 m = 53); [|lia].
  apply Zdigits2_unique; [lia|]. split; [apply Hlo; lia|lia].
Qed.

(** Moving between the scale of the division ([2^E]) and the float's own. *)
Lemma float_scale e E :
  E <= 0 -> E <= e ->
  float_num 1 e * 2 ^ (- E) = 2 ^ (e - E) * float_den e.
Proof.
  intros HE He. unfold float_num, float_den.
  rewrite Z.mul_1_l, <- !Z.pow_add_r by lia. f_equal. lia.
Qed.

Lemma float_num_mul m e : float_num m e = m * float_num 1 e.
Proof. unfold float_num. lia. Qed.

Lemma float_pos e : 0 < float_num 1 e /\ 0 < float_den e.
Proof.
  unfold float_num, float_den. split.
  - pose proof (pow2_pos (Z.max e 0) ltac:(lia)). lia.
  - apply pow2_pos. lia.
Qed.

Lemma half_ulp_rescale m e E a b :
  E <= 0 -> E <= e -> 0 < b ->
  2 * Z.abs (m * (2 ^ (e - E) * b) - a * 2 ^ (- E)) <= 2 ^ (e - E) * b ->
  within_half_ulp m e a b.
Proof.
  intros HE He Hb H. unfold within_half_ulp.
  pose proof (float_scale e E HE He) as Hs.
  destruct (float_pos e) as [HP HN].
  pose proof (pow2_pos (- E) ltac:(lia)) as HS.
  pose proof (pow2_pos (e - E) ltac:(lia)) as HT.
  rewrite (float_num_mul m).
  set (P := float_num 1 e) in *. set (N := float_den e) in *.
  set (S := 2 ^ (- E)) in *. set (T := 2 ^ (e - E)) in *.
  assert (Hk : (m * P * b - a * N) * S = N * (m * (T * b) - a * S)).
  { replace ((m * P * b - a * N) * S) with (m * b * (P * S) - a * N * S) by ring.
    rewrite Hs. ring. }
  assert (Hr : P * b * S = N * (T * b)).
  { replace (P * b * S) with (b * (P * S)) by ring. rewrite Hs. ring. }
  split.
  - apply Z.mul_le_mono_pos_r with (p := S); [lia|]. nia.
  - apply Z.mul_le_mono_pos_r with (p := S); [lia|]. nia.
Qed.

(** Integer true division is correctly rounded: the float it returns is a
    canonical binary64 at most half a unit in the last place away from the
    exact quotient. *)
Lemma b64_div_rounds a b :
  0 <= a -> 0 < b -> rounds_quotient a b (b64_div a b).
Proof.
  intros Ha Hb.
  destruct (Z.eq_dec a 0) as [->|Hnz].
  { destruct b as [|pb|pb]; try lia. cbn. split; [reflexivity|]. lia. }
  destruct (b64_div_shape a b ltac:(lia) Hb)
    as (E & e1 & m2 & HE & Hle & Hm2 & Hlo & Herr & _ & _ & _ & ->).
  pose proof (pow2_pos (- E) ltac:(lia)) as HS.
  pose proof (pow2_pos (e1 - E) ltac:(lia)) as HT.
  assert (He1 : -1074 <= e1) by lia.
  change (2 ^ 53) with 9007199254740992 in *.
  change (2 ^ 52) with 4503599627370496 in *.
  destruct (Z.eqb_spec m2 0) as [E0|E0].
  { (* underflow to zero *)
    subst m2. split; [reflexivity|].
    assert (e1 = -1074) by (destruct (Z.eq_dec e1 (-1074)); [assumption|lia]).
    assert (E = -1074) by lia. subst e1 E.
    change (-1074 - -1074) with 0 in Herr. change (- -1074) with 1074 in Herr.
    rewrite Z.pow_0_r in Herr. lia. }
  destruct (Z.eqb_spec m2 9007199254740992) as [E53|E53].
  { (* the mantissa carried into the next binade *)
    subst m2.
    destruct (Z.leb_spec (e1 + 1) 971) as [Hfin|Hinf].
    - split; [reflexivity|]. split.
      + apply bounded_iff. change (Zdigits2 4503599627370496) with 53. lia.
      + apply (half_ulp_rescale _ _ E); try lia.
        replace (e1 + 1 - E) with (e1 - E + 1) by lia.
        rewrite pow2_S by lia. lia.
    - split; [reflexivity|].
      assert (Hp : 2 ^ 971 * 2 ^ (- E) <= 2 ^ (e1 - E)).
      { rewrite <- Z.pow_add_r by lia. apply pow2_le. lia. }
      change (2 ^ 1023) with (4503599627370496 * 2 ^ 971).
      apply Z.mul_le_mono_pos_r with (p := 2 ^ (- E)); [lia|]. nia. }
  destruct (Z.leb_spec e1 971) as [Hfin|Hinf].
  - split; [reflexivity|]. split.
    + apply bounded_from_size; try lia.
    + rewrite Z2Pos.id by lia. apply (half_ulp_rescale _ _ E); try lia.
  - split; [reflexivity|].
    assert (Hp : 2 ^ 972 * 2 ^ (- E) <= 2 ^ (e1 - E)).
    { rewrite <- Z.pow_add_r by lia. apply pow2_le. lia. }
    specialize (Hlo ltac:(lia)).
    change (2 ^ 1023) with (2251799813685248 * 2 ^ 972).
    apply Z.mul_le_mono_pos_r with (p := 2 ^ (- E)); [lia|]. nia.
Qed.

Lemma pow2_lt_inv e1 e2 : 0 <= e2 -> 2 ^ e1 < 2 ^ e2 -> e1 < e2.
Proof.
  intros H2 H. destruct (Z_lt_le_dec e1 e2); [assumption|].
  assert (2 ^ e2 <= 2 ^ e1) by (apply pow2_le; lia). lia.
Qed.

(** Whenever the exact quotient is itself a binary64 number, integer true
    division returns exactly that number. *)
Lemma b64_div_exact a b m e :
  0 < a -> 0 < b ->
  bounded prec emax m e = true -> represents (Z.pos m) e a b ->
  b64_div a b = S754_finite false m e.
Proof.
  intros Ha Hb Hbd Hrep.
  apply bounded_iff in Hbd. destruct Hbd as [Hcan He971].
  destruct (Zdigits2_bounds (Z.pos m) ltac:(lia)) as (Hdm & Hmlo & Hmhi).
  assert (Hm53 : Z.pos m < 2 ^ 53).
  { eapply Z.lt_le_trans; [exact Hmhi|]. apply pow2_le. lia. }
  destruct (b64_div_shape a b Ha Hb)
    as (E & e1 & m2 & HE & Hle & Hm2 & Hlo & Herr & Hex & HEdef & He1 & ->).
  rewrite fexp_eq in HEdef, He1.
  destruct (Zdigits2_bounds a Ha) as (Hda & Halo & _).
  destruct (Zdigits2_bounds b Hb) as (Hdb & _ & Hbhi).
  destruct (float_pos e) as [HP HN].
  pose proof (pow2_pos (- E) ltac:(lia)) as HS.
  unfold represents in Hrep. rewrite float_num_mul in Hrep.
  (* the float's exponent is not below the scale of the division *)
  assert (HEe : E <= e).
  { destruct (Z_le_gt_dec 0 e); [lia|].
    destruct (Z.eq_dec E (-1074)); [lia|].
    assert (E <= Zdigits2 a - Zdigits2 b - 53) by lia.
    assert (Hp1 : float_num 1 e = 1).
    { unfold float_num. rewrite Z.max_r by lia. reflexivity. }
    assert (Hn1 : float_den e = 2 ^ (- e)).
    { unfold float_den. rewrite Z.max_l by lia. reflexivity. }
    rewrite Hp1, Hn1 in Hrep.
    pose proof (pow2_pos (- e) ltac:(lia)) as Hpe.
    assert (2 ^ (Zdigits2 a - 1 - e) < 2 ^ (53 + Zdigits2 b)).
    { rewrite (Z.pow_add_r 2 53) by lia.
      replace (Zdigits2 a - 1 - e) with (Zdigits2 a - 1 + - e) by lia.
      rewrite Z.pow_add_r by lia.
      pose proof (pow2_pos (Zdigits2 a - 1) ltac:(lia)).
      pose proof (pow2_pos (Zdigits2 b) ltac:(lia)).
      nia. }
    apply pow2_lt_inv in H0; lia. }
  pose proof (pow2_pos (e - E) ltac:(lia)) as HT.
  pose proof (float_scale e E ltac:(lia) HEe) as Hs.
  (* the scaled quotient is an integer *)
  assert (Hnum : a * 2 ^ (- E) = Z.pos m * (2 ^ (e - E) * b)).
  { apply Z.mul_reg_r with (p := float_den e); [lia|].
    replace (a * 2 ^ (- E) * float_den e) with (a * float_den e * 2 ^ (- E)) by ring.
    rewrite <- Hrep.
    replace (Z.pos m * float_num 1 e * b * 2 ^ (- E))
      with (Z.pos m * b * (float_num 1 e * 2 ^ (- E))) by ring.
    rewrite Hs. ring. }
  assert (Hq : a * 2 ^ (- E) / b = Z.pos m * 2 ^ (e - E)).
  { rewrite Hnum. replace (Z.pos m * (2 ^ (e - E) * b))
      with (Z.pos m * 2 ^ (e - E) * b) by ring.
    apply Z.div_mul. lia. }
  assert (Hdq : Zdigits2 (Z.pos m * 2 ^ (e - E)) = Zdigits2 (Z.pos m) + (e - E)).
  { apply Zdigits2_unique; [nia|].
    replace (Zdigits2 (Z.pos m) + (e - E) - 1)
      with (Zdigits2 (Z.pos m) - 1 + (e - E)) by lia.
    rewrite !Z.pow_add_r by lia. split; nia. }
  assert (He1e : e1 = e) by (rewrite He1, Hq, Hdq; lia).
  clear He1. subst e1.
  rewrite (Hex (Z.pos m) Hnum).
  destruct (Z.eqb_spec (Z.pos m) 0); [lia|].
  destruct (Z.eqb_spec (Z.pos m) (2 ^ 53)); [lia|].
  destruct (Z.leb_spec e 971); [reflexivity|lia].
Qed.

(** No [OverflowError] below [2^1023]: the division returns a float, and a
    correctly rounded one. *)
Lemma int_truediv_total a b :
  0 <= a -> 0 < b -> a < 2 ^ 1023 * b ->
  exists f, int_truediv a b = Ok f /\ f = b64_div a b /\ rounds_quotient a b f.
Proof.
  intros Ha Hb Hlt. pose proof (b64_div_rounds a b Ha Hb) as Hr.
  unfold int_truediv. destruct (Z.eqb_spec b 0); [lia|].
  destruct (b64_div a b) as [s|s| |s m e] eqn:Ed; cbn [rounds_quotient] in Hr.
  - eauto.
  - lia.
  - contradiction.
  - eauto.
Qed.

Lemma int_truediv_inv a b f :
  int_truediv a b = Ok f -> b <> 0 /\ f = b64_div a b.
Proof.
  unfold int_truediv. destruct (Z.eqb_spec b 0); [discriminate|].
  destruct (b64_div a b); intros H; inversion H; auto.
Qed.

(* ================================================================== *)
(** ** The pipeline *)

Ltac run_monad :=
  unfold bind, ret, raise, lift, try_except, try_finally, print, sleep,
    next_tick, rpc, Session, session_add, session_commit, session_rollback,
    session_close, query_count, create_all in *.

Lemma sampled_blocks_app (t1 t2 : list event) :
  sampled_blocks (t1 ++ t2) = sampled_blocks t1 ++ sampled_blocks t2.
Proof.
  induction t1 as [|ev t1 IH]; simpl; [reflexivity|].
  destruct (sampled_block ev); simpl; now rewrite IH.
Qed.

(** [get_data_at_block] returns [sample] and only extends the trace. *)
Lemma get_data_at_block_spec env b st :
  exists evs,
    EtlHistory.get_data_at_block env b st
    = (sample (chain env (tick st)) b,
       log (EvRpc (ReqTotalAssets (BlockNum b)) :: evs) st)
    /\ sampled_blocks evs = []
    /\ filter is_insert evs = [].
Proof.
  unfold EtlHistory.get_data_at_block, sample. run_monad.
  destruct (totalAssets (chain env (tick st)) (BlockNum b)) as [ra|e]; simpl.
  2:{ exists []. auto. }
  destruct (totalSupply (chain env (tick st)) (BlockNum b)) as [rs|e]; simpl.
  2:{ exists [EvRpc (ReqTotalSupply (BlockNum b))]. unfold log; simpl.
      rewrite <- app_assoc. auto. }
  destruct (decimals (chain env (tick st)) Latest) as [d|e]; simpl.
  2:{ exists [EvRpc (ReqTotalSupply (BlockNum b)); EvRpc (ReqDecimals Latest)].
      unfold log; simpl. rewrite <- !app_assoc. auto. }
  exists [EvRpc (ReqTotalSupply (BlockNum b)); EvRpc (ReqDecimals Latest);
          EvRpc (ReqGetBlock (BlockNum b))].
  destruct (get_block (chain env (tick st)) (BlockNum b)) as [bi|e]; simpl;
    unfold log; simpl; rewrite <- !app_assoc; auto.
Qed.

Lemma existsb_false {A} (f : A -> bool) (l : list A) :
  (forall x, In x l -> f x = false) -> existsb f l = false.
Proof.
  induction l as [|a l IH]; simpl; intros H; [reflexivity|].
  rewrite (H a) by auto. simpl. apply IH. auto.
Qed.

(** On the declared table a fresh sequence value never collides. *)
Lemma no_violation next rs row :
  ids_below next rs -> id row = Some next ->
  violated vault_metrics rs row = None.
Proof.
  intros Hb Hid. unfold violated, vault_metrics. simpl.
  replace (existsb _ rs) with false; [reflexivity|].
  symmetry. apply existsb_false. intros other Hin.
  unfold collides. simpl. rewrite Hid. simpl.
  destruct (cell_eq_dec (CInt next) (opt_cell CInt (id other))) as [E|]; auto.
  unfold ids_below in Hb. rewrite Forall_forall in Hb. specialize (Hb _ Hin).
  destruct (id other); simpl in E; [|discriminate].
  inversion E; subst. lia.
Qed.

Lemma flush_one now next rs m :
  ids_below next rs -> id m = None ->
  flush vault_metrics now rs next [m]
  = Ok (rs ++ [with_defaults next now m], [with_defaults next now m], next + 1).
Proof.
  intros Hb Hid. unfold flush.
  rewrite (no_violation next rs); [reflexivity|assumption|].
  unfold with_defaults. simpl. now rewrite Hid.
Qed.

Lemma ids_below_snoc next now rs m :
  ids_below next rs -> id m = None ->
  ids_below (next + 1) (rs ++ [with_defaults next now m]).
Proof.
  unfold ids_below. intros Hb Hid. apply Forall_app. split.
  - eapply Forall_impl; [|exact Hb]. intros a; simpl. destruct (id a); [lia|auto].
  - constructor; [|constructor]. simpl. rewrite Hid. lia.
Qed.

(** A commit stores the pending metrics as they are, up to the defaults
    of [id] and [timestamp]. *)
Lemma flush_stored schema now : forall pend rs next rs' stored next',
  flush schema now rs next pend = Ok (rs', stored, next') ->
  rs' = rs ++ stored
  /\ Forall2 (fun m r => block_number r = block_number m
                         /\ tvl_assets r = tvl_assets m
                         /\ share_price r = share_price m
                         /\ raw_total_assets r = raw_total_assets m)
       pend stored.
Proof.
  induction pend as [|m pend IH]; intros rs next rs' stored next' H.
  - inversion H; subst. rewrite app_nil_r. auto.
  - cbn [flush] in H.
    destruct (violated schema rs (with_defaults next now m)); [discriminate|].
    unfold bindR in H.
    destruct (flush schema now (rs ++ [with_defaults next now m]) (next + 1) pend)
      as [[[rs1 st1] n1]|e] eqn:E; [|discriminate].
    inversion H; subst. destruct (IH _ _ _ _ _ E) as [-> HF].
    split; [now rewrite <- app_assoc|].
    constructor; [simpl; auto|assumption].
Qed.

(** [str] of an [int] loses nothing: [int] reads it back. *)
Lemma str_int_roundtrip n : int_of_str (str_int n) = Some n.
Proof.
  unfold int_of_str, str_int. rewrite NilZero.isi.
  - simpl. now rewrite DecimalZ.of_to.
  - destruct n; simpl; intros H; inversion H.
    now apply (Unsigned.to_uint_nonnil p).
  - destruct n; simpl; intros H; inversion H.
    now apply (Unsigned.to_uint_nonnil p).
Qed.

(** [etl.py] keeps the raw value: the metric's [raw_total_assets] is the
    decimal text of [raw_assets]. *)
Lemma etl_metric_keeps_raw_total_assets ra rs d bn m :
  Etl.build_metric ra rs d bn = Ok m ->
  raw_total_assets m = Some (str_int ra)
  /\ option_map int_of_str (raw_total_assets m) = Some (Some ra).
Proof.
  unfold Etl.build_metric, bindR.
  destruct (int_pow 10 d); [|discriminate].
  destruct (int_truediv ra a); [|discriminate].
  destruct (if rs >? 0 then int_truediv ra rs else Ok float_one); [|discriminate].
  intros H; inversion H; subst; simpl. now rewrite str_int_roundtrip.
Qed.

Lemma build_metric_id ra rs d b dt m :
  EtlHistory.build_metric ra rs d b dt = Ok m ->
  id m = None /\ block_number m = Some b /\ raw_total_assets m = None.
Proof.
  unfold EtlHistory.build_metric, bindR.
  destruct (int_pow 10 d); [|discriminate].
  destruct (int_truediv ra a); [|discriminate].
  destruct (if rs >? 0 then int_truediv ra rs else Ok float_one); [|discriminate].
  intros H; inversion H; subst; simpl; auto.
Qed.

Lemma sample_id c b m :
  sample c b = Ok m ->
  id m = None /\ block_number m = Some b /\ raw_total_assets m = None.
Proof.
  unfold sample, bindR.
  destruct (totalAssets c (BlockNum b)); [|discriminate].
  destruct (totalSupply c (BlockNum b)); [|discriminate].
  destruct (decimals c Latest); [|discriminate].
  destruct (get_block c (BlockNum b)); [|discriminate].
  apply build_metric_id.
Qed.

(** What one turn of the backfill loop does, whatever goes wrong in it. *)
Lemma backfill_block_spec env b st :
  let r := EtlHistory.backfill_block env b st in
  fst r = Ok tt
  /\ tick (snd r) = S (tick st)
  /\ pending (snd r) = []
  /\ db_schema (snd r) = db_schema st
  /\ sampled_blocks (trace (snd r)) = sampled_blocks (trace st) ++ [b]
  /\ match sample (chain env (tick st)) b, db_fault env (tick st) with
     | Ok m, None =>
         match flush (db_schema st) (wall_clock env (tick st)) (rows st)
                 (next_id st) (pending st ++ [m]) with
         | Ok (rows', _, next') =>
             rows (snd r) = rows' /\ next_id (snd r) = next'
         | Raise _ => rows (snd r) = rows st /\ next_id (snd r) = next_id st
         end
     | _, _ => rows (snd r) = rows st /\ next_id (snd r) = next_id st
     end.
Proof.
  unfold EtlHistory.backfill_block.
  destruct (get_data_at_block_spec env b st) as (evs & Hg & Hs & _).
  run_monad. rewrite Hg. clear Hg.
  destruct (sample (chain env (tick st)) b) as [m|e]; simpl.
  - destruct (db_fault env (tick st)) as [e|]; simpl.
    + rewrite !sampled_blocks_app. simpl. rewrite Hs, !app_nil_r. auto 10.
    + destruct (flush _ _ _ _ _) as [[[rows' stored] next']|e]; simpl.
      * rewrite !sampled_blocks_app. simpl. rewrite Hs, !app_nil_r.
        replace (sampled_blocks (map EvInsert stored)) with (@nil Z).
        { rewrite !app_nil_r. auto 10. }
        clear. induction stored; simpl; auto.
      * rewrite !sampled_blocks_app. simpl. rewrite Hs, !app_nil_r. auto 10.
  - destruct (db_fault env (tick st));
      rewrite !sampled_blocks_app; simpl; rewrite Hs, !app_nil_r; auto 10.
Qed.

Lemma backfill_loop_runs env blocks : forall st,
  let r := for_each blocks (EtlHistory.backfill_block env) st in
  fst r = Ok tt
  /\ tick (snd r) = (tick st + List.length blocks)%nat
  /\ db_schema (snd r) = db_schema st
  /\ sampled_blocks (trace (snd r)) = sampled_blocks (trace st) ++ blocks.
Proof.
  induction blocks as [|b blocks IH]; intros st; simpl.
  - rewrite Nat.add_0_r, app_nil_r. auto.
  - destruct (backfill_block_spec env b st) as (Hr & Ht & _ & Hsch & Hsm & _).
    unfold bind.
    destruct (EtlHistory.backfill_block env b st) as [[[]|e] st1];
      simpl in *; [|discriminate].
    destruct (IH st1) as (Hr' & Ht' & Hsch' & Hsm').
    repeat split; auto.
    + rewrite Ht', Ht. lia.
    + congruence.
    + rewrite Hsm', Hsm, <- app_assoc. reflexivity.
Qed.

Lemma backfill_loop_rows env blocks : forall st,
  db_schema st = vault_metrics -> pending st = [] ->
  ids_below (next_id st) (rows st) ->
  let r := for_each blocks (EtlHistory.backfill_block env) st in
  stored_blocks (snd r)
  = stored_blocks st ++ map Some (expected_blocks env (tick st) blocks)
  /\ ids_below (next_id (snd r)) (rows (snd r)).
Proof.
  induction blocks as [|b blocks IH]; intros st Hsch Hp Hb; simpl.
  - rewrite app_nil_r. auto.
  - destruct (backfill_block_spec env b st) as (Hr & Ht & Hp1 & Hsch1 & _ & Hrows).
    unfold bind.
    destruct (EtlHistory.backfill_block env b st) as [[[]|e] st1];
      simpl in *; [|discriminate].
    assert (Hstep :
      stored_blocks st1
      = stored_blocks st ++ map Some (if block_ok env (tick st) b then [b] else [])
      /\ ids_below (next_id st1) (rows st1)).
    { unfold block_ok, stored_blocks.
      destruct (sample (chain env (tick st)) b) as [m|e] eqn:Es.
      - destruct (db_fault env (tick st)).
        + destruct Hrows as [-> ->]. simpl. rewrite app_nil_r. auto.
        + destruct (sample_id _ _ _ Es) as (Hid & Hbn & _).
          rewrite Hsch, Hp in Hrows. simpl app in Hrows.
          rewrite (flush_one _ _ _ _ Hb Hid) in Hrows.
          destruct Hrows as [-> ->]. split.
          * rewrite map_app. simpl. now rewrite Hbn.
          * now apply ids_below_snoc.
      - destruct (db_fault env (tick st));
          destruct Hrows as [-> ->]; simpl; rewrite app_nil_r; auto. }
    destruct Hstep as [Hst1 Hb1].
    destruct (IH st1) as [Hst2 Hb2]; [congruence|assumption|assumption|].
    split; [|assumption].
    rewrite Hst2, Hst1, Ht, map_app, <- app_assoc. reflexivity.
Qed.

Lemma expected_blocks_nth env : forall blocks t i b,
  nth_error blocks i = Some b ->
  block_ok env (t + i) b = true ->
  In b (expected_blocks env t blocks).
Proof.
  induction blocks as [|a blocks IH]; intros t i b Hn Hok.
  - destruct i; discriminate.
  - destruct i as [|i]; simpl in *.
    + inversion Hn; subst. rewrite Nat.add_0_r in Hok. rewrite Hok.
      simpl. auto.
    + apply in_or_app. right. apply (IH (S t) i); auto.
      now rewrite Nat.add_succ_comm.
Qed.

(** *** [range] *)

Lemma range_items_S start step n :
  range_items start step (S n) = start :: range_items (start + step) step n.
Proof.
  unfold range_items. cbn [seq map]. rewrite <- seq_shift, map_map.
  f_equal; [simpl; lia|]. apply map_ext. intros i. lia.
Qed.

Lemma range_items_In start step n b :
  In b (range_items start step n)
  <-> exists i, (i < n)%nat /\ b = start + Z.of_nat i * step.
Proof.
  unfold range_items. rewrite in_map_iff. split.
  - intros (i & <- & Hi). apply in_seq in Hi. exists i. split; [lia|reflexivity].
  - intros (i & Hi & ->). exists i. split; [reflexivity|]. apply in_seq. lia.
Qed.

Lemma range_items_sorted step : 0 < step -> forall n start,
  StronglySorted Z.lt (range_items start step n).
Proof.
  intros Hs. induction n as [|n IH]; intros start.
  - constructor.
  - rewrite range_items_S. constructor; [apply IH|].
    rewrite Forall_forall. intros b Hb.
    apply range_items_In in Hb. destruct Hb as (i & _ & ->). nia.
Qed.

Lemma range_length_bound start stop step i :
  0 < step -> 0 <= i ->
  (i < range_length start stop step <-> start + i * step < stop).
Proof.
  intros Hs Hi. unfold range_length.
  destruct (Z.ltb_spec 0 step); [|lia].
  destruct (Z.ltb_spec start stop).
  - pose proof (Z.div_mod (stop - start - 1) step ltac:(lia)) as Hd.
    pose proof (Z.mod_pos_bound (stop - start - 1) step Hs) as Hm.
    split; intros; nia.
  - split; intros; nia.
Qed.

Lemma range_length_nonneg start stop step :
  0 < step -> 0 <= range_length start stop step.
Proof.
  intros Hs. unfold range_length.
  destruct (Z.ltb_spec 0 step); [|lia].
  destruct (Z.ltb_spec start stop); [|lia].
  pose proof (Z.div_pos (stop - start - 1) step). lia.
Qed.

(** For a positive step, [range] is the increasing arithmetic sequence
    from [start] cut strictly below [stop]. *)
Lemma py_range_spec start stop step :
  0 < step ->
  exists blocks,
    py_range start stop step = Ok blocks
    /\ StronglySorted Z.lt blocks
    /\ forall b, In b blocks
                 <-> exists k, 0 <= k /\ b = start + k * step /\ b < stop.
Proof.
  intros Hs. unfold py_range.
  destruct (Z.eqb_spec step 0); [lia|].
  eexists. split; [reflexivity|]. split; [now apply range_items_sorted|].
  intros b. rewrite range_items_In. split.
  - intros (i & Hi & ->). exists (Z.of_nat i). split; [lia|]. split; [reflexivity|].
    apply range_length_bound; lia.
  - intros (k & Hk & -> & Hlt). exists (Z.to_nat k).
    rewrite Z2Nat.id by assumption. split; [|reflexivity].
    apply (range_length_bound start stop step k Hs Hk) in Hlt.
    pose proof (range_length_nonneg start stop step Hs). lia.
Qed.

(** On an empty store the backfill is its loop over the stride blocks,
    entered in a state that differs from the initial one by the trace of
    the prelude and one tick. *)
Lemma backfill_history_empty env cfg step st head :
  step <> 0 -> rows st = [] -> db_fault env (tick st) = None ->
  get_block (chain env (tick st)) Latest = Ok head ->
  exists st0,
    tick st0 = S (tick st) /\ rows st0 = [] /\ next_id st0 = next_id st
    /\ pending st0 = [] /\ db_schema st0 = db_schema st
    /\ sampled_blocks (trace st0) = sampled_blocks (trace st)
    /\ EtlHistory.backfill_history env cfg step st
       = (Ok tt,
          set_pending []
            (log [EvPrint MsgBackfillDone]
               (snd (for_each (stride_blocks cfg (number head) step)
                       (EtlHistory.backfill_block env) st0)))).
Proof.
  intros Hstep Hrows Hdb Hhead.
  exists (set_tick (S (tick st))
            (log [EvRpc (ReqGetBlock Latest)]
               (log [EvPrint MsgBackfillStart]
                  (log [EvQueryCount] (set_pending [] st))))).
  split; [reflexivity|]. split; [assumption|]. split; [reflexivity|].
  split; [reflexivity|]. split; [reflexivity|]. split.
  2:{ unfold EtlHistory.backfill_history. run_monad. simpl.
      rewrite Hdb, Hrows. simpl. rewrite Hhead. unfold py_range.
      destruct (Z.eqb_spec step 0); [contradiction|].
      match goal with
      | |- _ = (_, set_pending [] (log _ (snd ?R))) =>
          match goal with
          | |- context [match ?X with (_, _) => _ end] =>
              change X with R
          end;
          match R with
          | for_each ?bs ?f ?s =>
              pose proof (backfill_loop_runs env bs s) as Hl
          end;
          destruct R as [[[]|e] st1]
      end; simpl in Hl; [|destruct Hl; discriminate].
      reflexivity. }
  simpl. rewrite !sampled_blocks_app. simpl. now rewrite !app_nil_r.
Qed.

(** C5. On an empty store the backfill samples exactly the stride blocks
    [DEPLOYMENT_BLOCK, DEPLOYMENT_BLOCK + step, ...] that lie strictly
    below the chain head, in increasing order, whatever happens to the
    individual samples; with deployment block 100, head 350 and step 100
    these are [100; 200; 300], and a head of 300 leaves [100; 200]. *)
Theorem backfill_samples_stride_blocks env cfg step st head
  (Hstep : 0 < step)
  (Hempty : rows st = [])
  (Hdb : db_fault env (tick st) = None)
  (Hhead : get_block (chain env (tick st)) Latest = Ok head) :
  (exists blocks,
      sampled_blocks (trace (snd (EtlHistory.backfill_history env cfg step st)))
      = sampled_blocks (trace st) ++ blocks
      /\ StronglySorted Z.lt blocks
      /\ forall b, In b blocks
                   <-> exists k, 0 <= k
                                 /\ b = EtlHistory.DEPLOYMENT_BLOCK cfg + k * step
                                 /\ b < number head)
  /\ sampled_blocks
       (trace (snd (EtlHistory.backfill_history example_env (example_cfg 100)
                      100 empty_store)))
     = [100; 200; 300]
  /\ stride_blocks (example_cfg 100) 350 100 = [100; 200; 300]
  /\ stride_blocks (example_cfg 100) 300 100 = [100; 200].
Proof.
  split; [|vm_compute; auto].
  destruct (backfill_history_empty env cfg step st head) as
      (st0 & Ht & _ & _ & _ & _ & Hsm & ->); auto; [lia|].
  destruct (py_range_spec (EtlHistory.DEPLOYMENT_BLOCK cfg) (number head) step Hstep)
    as (blocks & Hr & Hsorted & Hin).
  unfold py_range in Hr. destruct (Z.eqb_spec step 0); [lia|].
  inversion Hr as [Hb]. fold (stride_blocks cfg (number head) step) in Hb.
  exists blocks. split; [|split; assumption].
  simpl.
  destruct (backfill_loop_runs env (stride_blocks cfg (number head) step) st0)
    as (_ & _ & _ & Hs').
  rewrite sampled_blocks_app, Hs', Hsm, Hb. simpl. now rewrite app_nil_r.
Qed.

Lemma backfill_samples_stride_blocks_witness :
  0 < 100
  /\ rows empty_store = []
  /\ exists blocks,
       sampled_blocks
         (trace (snd (EtlHistory.backfill_history example_env (example_cfg 100)
                        100 empty_store)))
       = sampled_blocks (trace empty_store) ++ blocks
       /\ StronglySorted Z.lt blocks
       /\ forall b, In b blocks
                    <-> exists k, 0 <= k /\ b = 100 + k * 100 /\ b < 350.
Proof.
  split; [lia|]. split; [reflexivity|].
  exact (proj1 (backfill_samples_stride_blocks example_env (example_cfg 100) 100
                  empty_store
                  {| number := 350; block_timestamp := 1700000350 |}
                  ltac:(lia) eq_refl eq_refl eq_refl)).
Defined.

(** C6. A failure while sampling or inserting a stride block (a failed
    read, a transform error, a store error) never aborts the backfill:
    the run returns normally, every stride block is sampled, and every
    stride block whose own sample and insert succeed is stored, whatever
    happened at the others. With a failure injected at block 200 of
    [100; 200; 300], blocks 100 and 300 are stored. *)
Theorem backfill_survives_block_failure env cfg step st head
  (Hstep : 0 < step)
  (Hempty : rows st = [])
  (Hschema : db_schema st = vault_metrics)
  (Hdb : db_fault env (tick st) = None)
  (Hhead : get_block (chain env (tick st)) Latest = Ok head) :
  (let blocks := stride_blocks cfg (number head) step in
   let r := EtlHistory.backfill_history env cfg step st in
   fst r = Ok tt
   /\ sampled_blocks (trace (snd r)) = sampled_blocks (trace st) ++ blocks
   /\ stored_blocks (snd r)
      = map Some (expected_blocks env (S (tick st)) blocks)
   /\ forall i b, nth_error blocks i = Some b ->
                  block_ok env (S (tick st) + i) b = true ->
                  In (Some b) (stored_blocks (snd r)))
  /\ (let env := world (fun _ => reader_failing_at 200
                                   (steady_reader 350 1500000000 1000000000 9)) in
      let r := EtlHistory.backfill_history env (example_cfg 100) 100 empty_store in
      fst r = Ok tt
      /\ sampled_blocks (trace (snd r)) = [100; 200; 300]
      /\ stored_blocks (snd r) = [Some 100; Some 300]).
Proof.
  split; [|vm_compute; auto].
  intros blocks r. subst r.
  destruct (backfill_history_empty env cfg step st head) as
      (st0 & Ht & Hr0 & Hn0 & Hp0 & Hsch0 & Hsm & ->); auto; [lia|].
  fold blocks. simpl.
  destruct (backfill_loop_runs env blocks st0) as (_ & _ & _ & Hs').
  destruct (backfill_loop_rows env blocks st0) as [Hst _].
  { congruence. } { assumption. } { rewrite Hr0. constructor. }
  assert (Hstored :
    stored_blocks
      (set_pending [] (log [EvPrint MsgBackfillDone]
         (snd (for_each blocks (EtlHistory.backfill_block env) st0))))
    = map Some (expected_blocks env (S (tick st)) blocks)).
  { unfold stored_blocks in *. simpl. rewrite Hst, Hr0, Ht. reflexivity. }
  split; [reflexivity|]. split.
  { rewrite sampled_blocks_app, Hs', Hsm. simpl. now rewrite app_nil_r. }
  split; [exact Hstored|].
  intros i b Hn Hok. rewrite Hstored. apply in_map.
  eapply expected_blocks_nth; eauto.
Qed.

Lemma backfill_survives_block_failure_witness :
  0 < 100
  /\ rows empty_store = []
  /\ db_schema empty_store = vault_metrics
  /\ fst (EtlHistory.backfill_history
            (world (fun _ => reader_failing_at 200
                               (steady_reader 350 1500000000 1000000000 9)))
            (example_cfg 100) 100 empty_store) = Ok tt.
Proof.
  split; [lia|]. split; [reflexivity|]. split; [reflexivity|].
  exact (proj1 (proj1 (backfill_survives_block_failure
                  (world (fun _ => reader_failing_at 200
                                     (steady_reader 350 1500000000 1000000000 9)))
                  (example_cfg 100) 100 empty_store
                  {| number := 350; block_timestamp := 1700000350 |}
                  ltac:(lia) eq_refl eq_refl eq_refl eq_refl))).
Defined.

(** C4. When the table already holds a row the backfill does nothing:
    the rows and the id sequence are unchanged, the trace gains no request
    to the node and no insert, and (the count query going through) the
    call returns after printing that it skips. *)
Theorem backfill_skips_when_populated env cfg step st
  (Hpopulated : rows st <> []) :
  let r := EtlHistory.backfill_history env cfg step st in
  rows (snd r) = rows st
  /\ next_id (snd r) = next_id st
  /\ (exists delta, trace (snd r) = trace st ++ delta
                    /\ filter is_rpc delta = []
                    /\ filter is_insert delta = [])
  /\ (db_fault env (tick st) = None ->
      fst r = Ok tt
      /\ trace (snd r)
         = trace st ++ [EvQueryCount;
                        EvPrint (MsgBackfillSkip (Z.of_nat (List.length (rows st))))]).
Proof.
  intros r. subst r. rename Hpopulated into Hne.
  unfold EtlHistory.backfill_history. run_monad. simpl.
  destruct (db_fault env (tick st)) as [e|]; simpl.
  - split; [reflexivity|]. split; [reflexivity|]. split.
    + exists [EvQueryCount]. auto.
    + discriminate.
  - destruct (Z.eqb_spec (Z.of_nat (List.length (rows st))) 0) as [E|_].
    { destruct (rows st); [contradiction|simpl in E; lia]. }
    simpl. split; [reflexivity|]. split; [reflexivity|]. split.
    + eexists. rewrite <- app_assoc. split; [reflexivity|]. auto.
    + intros _. now rewrite <- app_assoc.
Qed.

Lemma backfill_skips_when_populated_witness :
  rows populated_store <> []
  /\ rows (snd (EtlHistory.backfill_history example_env (example_cfg 100) 100
                  populated_store))
     = rows populated_store.
Proof.
  split; [vm_compute; discriminate|].
  exact (proj1 (backfill_skips_when_populated example_env (example_cfg 100) 100
                  populated_store ltac:(vm_compute; discriminate))).
Defined.

(** *** The live loops *)

Lemma live_handler_ok e st :
  exists st', EtlHistory.live_handler e st = (Ok tt, st')
              /\ tick st' = tick st /\ rows st' = rows st
              /\ next_id st' = next_id st /\ db_schema st' = db_schema st.
Proof.
  unfold EtlHistory.live_handler. run_monad.
  destruct (negb _); simpl; eexists; split; reflexivity || auto.
Qed.

(** One turn of [run_live] always comes back normally. *)
Lemma run_live_iteration_total env interval st :
  exists st', EtlHistory.run_live_iteration env interval st = (Ok tt, st')
              /\ tick st' = S (tick st).
Proof.
  unfold EtlHistory.run_live_iteration.
  unfold bind at 1 2 3. unfold Session at 1. unfold try_finally, try_except.
  unfold bind at 1.
  unfold rpc at 1. simpl.
  assert (Hh : forall e s, tick s = tick st ->
    exists st',
      (let (r, st') :=
         let (r, st') := EtlHistory.live_handler e s in (r, set_pending [] st') in
       match r with
       | Ok _ => (sleep (interval * 1000);; next_tick) st'
       | Raise e0 => (Raise e0, st')
       end) = (Ok tt, st') /\ tick st' = S (tick st)).
  { intros e s Hs. destruct (live_handler_ok e s) as (s' & -> & Ht & _).
    run_monad. simpl. eexists. split; [reflexivity|]. simpl. congruence. }
  destruct (get_block (chain env (tick st)) Latest) as [head|e].
  2:{ apply Hh. reflexivity. }
  unfold bind at 1.
  match goal with
  | |- context [EtlHistory.get_data_at_block env ?b ?s] =>
      destruct (get_data_at_block_spec env b s) as (evs & -> & _)
  end.
  destruct (sample _ _) as [m|e].
  2:{ apply Hh. reflexivity. }
  unfold bind, session_add, session_commit, print. cbn -[flush].
  destruct (db_fault env (tick st)) as [e|].
  { apply Hh. reflexivity. }
  destruct (flush _ _ _ _ _) as [[[rows' stored] next']|e]; cbn.
  - eexists. split; [reflexivity|]. reflexivity.
  - apply Hh. reflexivity.
Qed.

(** No failure of the node or of the store ends [run_live]: after any
    number of turns the loop is still running, one tick per turn. *)
Lemma run_live_never_stops env interval fuel : forall st,
  exists st', EtlHistory.run_live env fuel interval st = (Ok tt, st')
              /\ tick st' = (tick st + fuel)%nat.
Proof.
  unfold EtlHistory.run_live, bind, print. intros st.
  assert (Hl : forall s, exists st',
    EtlHistory.run_live_loop env fuel interval s = (Ok tt, st')
    /\ tick st' = (tick s + fuel)%nat).
  { induction fuel as [|n IH]; intros s; simpl.
    - eexists. split; [reflexivity|]. lia.
    - unfold bind.
      destruct (run_live_iteration_total env interval s) as (s1 & -> & Ht).
      destruct (IH s1) as (s2 & -> & Ht2).
      eexists. split; [reflexivity|]. lia. }
  destruct (Hl (log [EvPrint MsgLiveStart] st)) as (st' & -> & Ht).
  eexists. split; [reflexivity|]. exact Ht.
Qed.

(** A turn of [run_live] whose reads and insert go through appends one row
    for the latest block. *)
Lemma run_live_iteration_stores env interval st head m :
  db_schema st = vault_metrics ->
  ids_below (next_id st) (rows st) ->
  db_fault env (tick st) = None ->
  get_block (chain env (tick st)) Latest = Ok head ->
  sample (chain env (tick st)) (number head) = Ok m ->
  exists st' row,
    EtlHistory.run_live_iteration env interval st = (Ok tt, st')
    /\ rows st' = rows st ++ [row]
    /\ block_number row = Some (number head)
    /\ next_id st' = next_id st + 1
    /\ ids_below (next_id st') (rows st')
    /\ db_schema st' = vault_metrics
    /\ tick st' = S (tick st).
Proof.
  intros Hsch Hids Hdb Hhead Hs.
  destruct (sample_id _ _ _ Hs) as (Hid & Hbn & _).
  unfold EtlHistory.run_live_iteration.
  unfold bind at 1 2 3. unfold Session at 1. unfold try_finally, try_except.
  unfold bind at 1. unfold rpc at 1. cbn [tick set_pending].
  rewrite Hhead. unfold bind at 1.
  match goal with
  | |- context [EtlHistory.get_data_at_block env ?b ?s] =>
      destruct (get_data_at_block_spec env b s) as (evs & -> & _)
  end.
  cbn [tick log set_pending]. rewrite Hs.
  unfold bind, session_add, session_commit, print, session_close, sleep,
    next_tick. cbn -[flush]. rewrite Hdb, Hsch.
  rewrite (flush_one _ _ _ _ Hids Hid). cbn.
  eexists. eexists. split; [reflexivity|]. cbn.
  split; [reflexivity|]. split; [exact Hbn|]. split; [reflexivity|].
  split; [now apply ids_below_snoc|]. split; [exact Hsch|reflexivity].
Qed.

(** Whenever two consecutive turns of [run_live] read the same latest
    block and both go through, that block gains two rows. *)
Lemma live_same_block_two_rows env interval st head1 head2 m1 m2 :
  db_schema st = vault_metrics ->
  ids_below (next_id st) (rows st) ->
  db_fault env (tick st) = None ->
  db_fault env (S (tick st)) = None ->
  get_block (chain env (tick st)) Latest = Ok head1 ->
  get_block (chain env (S (tick st))) Latest = Ok head2 ->
  number head1 = number head2 ->
  sample (chain env (tick st)) (number head1) = Ok m1 ->
  sample (chain env (S (tick st))) (number head2) = Ok m2 ->
  let r := EtlHistory.run_live_loop env 2 interval st in
  fst r = Ok tt
  /\ List.length (rows_at_block (number head1) (snd r))
     = S (S (List.length (rows_at_block (number head1) st))).
Proof.
  intros Hsch Hids Hdb1 Hdb2 Hh1 Hh2 Heq Hs1 Hs2 r. subst r.
  destruct (run_live_iteration_stores env interval st head1 m1)
    as (st1 & row1 & E1 & Hr1 & Hb1 & Hn1 & Hi1 & Hsch1 & Ht1); auto.
  rewrite <- Ht1 in Hdb2, Hh2, Hs2.
  destruct (run_live_iteration_stores env interval st1 head2 m2)
    as (st2 & row2 & E2 & Hr2 & Hb2 & Hn2 & Hi2 & Hsch2 & Ht2); auto.
  cbn [EtlHistory.run_live_loop]. unfold bind, ret. rewrite E1, E2. cbn [fst snd].
  split; [reflexivity|].
  unfold rows_at_block. rewrite Hr2, Hr1, !filter_app, !length_app. simpl.
  rewrite Hb1, Hb2, <- Heq, Z.eqb_refl. simpl. lia.
Qed.

(** In [etl.py] a failed first read of a turn ends [run] with the error. *)
Lemma run_read_error_propagates env fuel interval st e :
  get_block (chain env (tick st)) Latest = Raise e ->
  fst (Etl.run env (S fuel) interval st) = Raise e
  /\ rows (snd (Etl.run env (S fuel) interval st)) = rows st.
Proof.
  intros H. unfold Etl.run, Etl.run_loop, Etl.run_iteration,
    Etl.extract_and_transform, bind, print, rpc. simpl. rewrite H. auto.
Qed.

(** *** The store *)

Lemma rows_at_block_snoc b st row rs :
  rows st = rs ++ [row] -> block_number row = Some b ->
  forall st0, rows st0 = rs ->
  List.length (rows_at_block b st) = S (List.length (rows_at_block b st0)).
Proof.
  intros Hr Hb st0 H0. unfold rows_at_block. rewrite Hr, H0, filter_app.
  simpl. rewrite Hb, Z.eqb_refl, length_app. simpl. lia.
Qed.

(** C10. The declared table has a single key column, the autoincrement
    [id]; so on a table created from the declaration, adding and
    committing a metric whose block number is already stored succeeds, and
    the table then holds at least two rows for that block. *)
Theorem second_row_for_same_block env st m b
  (Hschema : db_schema st = vault_metrics)
  (Hids : ids_below (next_id st) (rows st))
  (Hpending : pending st = [])
  (Hdb : db_fault env (tick st) = None)
  (Hid : id m = None)
  (Hblock : block_number m = Some b)
  (Hstored : rows_at_block b st <> []) :
  map col_name (filter key_column vault_metrics) = ["id"%string]
  /\ exists row,
       (session_add m ;; session_commit env) st
       = (Ok [row],
          log [EvInsert row] (set_pending [] (set_rows (rows st ++ [row])
                                                (next_id st + 1)
                                                (set_pending [m] st))))
       /\ block_number row = Some b
       /\ id row = Some (next_id st)
       /\ (2 <= List.length
                  (rows_at_block b
                     (snd ((session_add m ;; session_commit env) st))))%nat.
Proof.
  split; [reflexivity|].
  exists (with_defaults (next_id st) (wall_clock env (tick st)) m).
  assert (E : (session_add m ;; session_commit env) st
       = (Ok [with_defaults (next_id st) (wall_clock env (tick st)) m],
          log [EvInsert (with_defaults (next_id st) (wall_clock env (tick st)) m)]
            (set_pending []
               (set_rows (rows st ++ [with_defaults (next_id st)
                                        (wall_clock env (tick st)) m])
                  (next_id st + 1) (set_pending [m] st))))).
  { unfold bind, session_add, session_commit. cbn -[flush].
    rewrite Hdb, Hschema, Hpending. cbn -[flush].
    rewrite (flush_one _ _ _ _ Hids Hid). reflexivity. }
  split; [exact E|]. split; [exact Hblock|]. split.
  { simpl. now rewrite Hid. }
  rewrite E. cbn [snd].
  erewrite (rows_at_block_snoc b _ _ (rows st)); [| reflexivity | exact Hblock | reflexivity].
  destruct (rows_at_block b st); [contradiction|simpl; lia].
Qed.


Lemma second_row_for_same_block_witness :
  rows_at_block 100 populated_store <> []
  /\ exists row,
       (session_add example_metric ;; session_commit example_env) populated_store
       = (Ok [row],
          log [EvInsert row]
            (set_pending []
               (set_rows (rows populated_store ++ [row])
                  (next_id populated_store + 1)
                  (set_pending [example_metric] populated_store))))
       /\ block_number row = Some 100
       /\ id row = Some (next_id populated_store)
       /\ (2 <= List.length
                  (rows_at_block 100
                     (snd ((session_add example_metric ;;
                            session_commit example_env) populated_store))))%nat.
Proof.
  split; [vm_compute; discriminate|].
  refine (proj2 (second_row_for_same_block example_env populated_store
                   example_metric 100 eq_refl _ eq_refl eq_refl eq_refl eq_refl
                   ltac:(vm_compute; discriminate))).
  vm_compute. repeat constructor.
Defined.

(** *** Counterexamples to one-row-per-block and to raw value retention *)

(** C1. Two consecutive turns of [run_live] that resolve the same latest
    block, on a table created from the declaration: both inserts succeed,
    the block is stored twice and no error is raised or printed. *)
Theorem live_same_block_stored_twice :
  let r := EtlHistory.run_live example_env 2 300 empty_store in
  fst r = Ok tt
  /\ sampled_blocks (trace (snd r)) = [350; 350]
  /\ stored_blocks (snd r) = [Some 350; Some 350]
  /\ List.length (rows_at_block 350 (snd r)) = 2%nat
  /\ filter is_error_print (trace (snd r)) = [].
Proof.
  vm_compute. repeat split.
Qed.

(** C7. The metrics [etl_with_history.py] stores, from the backfill and
    from [run_live], all have a NULL [raw_total_assets]. *)
Theorem history_metric_has_no_raw_total_assets :
  let r := EtlHistory.backfill_history example_env (example_cfg 100) 100
             empty_store in
  let r' := EtlHistory.run_live example_env 1 300 (snd r) in
  stored_blocks (snd r') = [Some 100; Some 200; Some 300; Some 350]
  /\ map raw_total_assets (rows (snd r')) = [None; None; None; None].
Proof.
  vm_compute. split; reflexivity.
Qed.

(** C8. In [etl.py] a read error during sampling ends [run]: with the
    node down during the second turn, the loop stops there with the
    error, after one stored row. *)
Theorem run_stops_on_read_error :
  let r := Etl.run flaky_env 5 300 empty_store in
  fst r = Raise (RpcError "connection refused")
  /\ tick (snd r) = 1%nat
  /\ stored_blocks (snd r) = [Some 350].
Proof.
  vm_compute. repeat split.
Qed.

(** On the same chain [run_live] of [etl_with_history.py] keeps going. *)
Lemma run_live_survives_read_error :
  let r := EtlHistory.run_live flaky_env 5 300 empty_store in
  fst r = Ok tt
  /\ tick (snd r) = 5%nat
  /\ stored_blocks (snd r) = [Some 350; Some 352; Some 353; Some 354].
Proof.
  vm_compute. repeat split.
Qed.

(** *** Startup *)

(** C9. With [RPC_URL] or [DB_URL] missing from the environment the
    program stops with an exception before anything else happens: no
    request to the node, no access to the store. A missing [RPC_URL] is
    caught by the module's own test; a missing [DB_URL] reaches
    [create_engine] as [None], which rejects it. *)
Theorem missing_config_aborts_at_startup env create_engine getenv fuel st e0
  (Hlib : create_engine None = Raise e0)
  (Hmissing : getenv "RPC_URL"%string = None \/ getenv "DB_URL"%string = None) :
  exists e, EtlHistory.program env create_engine getenv fuel st = (Raise e, st).
Proof.
  unfold EtlHistory.program, EtlHistory.module_init, bind, lift.
  destruct (truthy (getenv "RPC_URL"%string)) eqn:Et; simpl.
  - destruct Hmissing as [H|H].
    + rewrite H in Et. discriminate.
    + unfold EtlHistory.main, EtlHistory.VaultETL_init, bind, lift. simpl.
      rewrite H, Hlib. eauto.
  - eauto.
Qed.

(* ================================================================== *)
(** ** The transform *)

Lemma missing_config_aborts_at_startup_witness :
  strict_create_engine None
  = Raise (ArgumentError "Expected string or URL object, got None")
  /\ exists e,
       EtlHistory.program example_env strict_create_engine (fun _ => None) 3
         initial_state
       = (Raise e, initial_state).
Proof.
  split; [reflexivity|].
  exact (missing_config_aborts_at_startup example_env strict_create_engine
           (fun _ => None) 3 initial_state _ eq_refl (or_introl eq_refl)).
Defined.

Lemma pow10_pos d : 0 <= d -> 0 < 10 ^ d.
Proof. intros. apply Z.pow_pos_nonneg; lia. Qed.

Lemma int_pow_inv b e p : int_pow b e = Ok p -> 0 <= e /\ p = b ^ e.
Proof.
  unfold int_pow. destruct (Z.ltb_spec e 0) as [|Hge]; [discriminate|].
  intros Hp; inversion Hp. split; [assumption|reflexivity].
Qed.

(** Both scripts compute the same two derived fields. *)
Lemma build_metric_fields ra rs d bn dt m :
  EtlHistory.build_metric ra rs d bn dt = Ok m
  \/ Etl.build_metric ra rs d bn = Ok m ->
  exists tvl price,
    int_truediv ra (10 ^ d) = Ok tvl
    /\ (if rs >? 0 then int_truediv ra rs else Ok float_one) = Ok price
    /\ 0 <= d
    /\ tvl_assets m = Some tvl /\ share_price m = Some price.
Proof.
  unfold EtlHistory.build_metric, Etl.build_metric, bindR.
  destruct (int_pow 10 d) as [p|e] eqn:Ep; [|intros [H|H]; discriminate].
  apply int_pow_inv in Ep. destruct Ep as [Hd ->].
  destruct (int_truediv ra (10 ^ d)) as [tvl|e]; [|intros [H|H]; discriminate].
  destruct (if rs >? 0 then int_truediv ra rs else Ok float_one) as [price|e];
    [|intros [H|H]; discriminate].
  intros [H|H]; inversion H; subst; simpl; eauto 10.
Qed.

Lemma float_three_halves_value : represents 6755399441055744 (-52) 3 2.
Proof. reflexivity. Qed.

Lemma float_one_value : represents 4503599627370496 (-52) 1 1.
Proof. reflexivity. Qed.

Lemma rounded_exact a b f :
  0 <= a -> 0 < b -> f = b64_div a b ->
  forall mant e, bounded prec emax mant e = true ->
                 represents (Z.pos mant) e a b ->
                 f = S754_finite false mant e.
Proof.
  intros Ha Hb -> mant e Hbd Hrep.
  destruct (Z.eq_dec a 0) as [->|Hnz].
  - exfalso. unfold represents in Hrep. rewrite float_num_mul in Hrep.
    destruct (float_pos e). nia.
  - apply b64_div_exact; auto; lia.
Qed.

(** With [raw_assets] in the range of the ABI's [uint256] output and
    [decimals >= 0] both transforms return, whatever [raw_supply] is: the
    two divisions give floats, and these are the metric's two derived
    fields. *)
Lemma build_metric_returns ra rs d bn dt :
  0 <= ra < 2 ^ 256 -> 0 <= d ->
  exists tvl price,
    int_truediv ra (10 ^ d) = Ok tvl
    /\ (if rs >? 0 then int_truediv ra rs else Ok float_one) = Ok price
    /\ EtlHistory.build_metric ra rs d bn dt
       = Ok {| id := None; timestamp := Some dt; block_number := Some bn;
               tvl_assets := Some tvl; share_price := Some price;
               raw_total_assets := None |}
    /\ Etl.build_metric ra rs d bn
       = Ok {| id := None; timestamp := None; block_number := Some bn;
               tvl_assets := Some tvl; share_price := Some price;
               raw_total_assets := Some (str_int ra) |}.
Proof.
  intros Ha Hd.
  pose proof (pow10_pos d Hd) as Hp.
  assert (H256 : 2 ^ 256 <= 2 ^ 1023) by (apply pow2_le; lia).
  pose proof (pow2_pos 1023 ltac:(lia)) as H1023.
  destruct (int_truediv_total ra (10 ^ d)) as (tvl & Ht & _); [lia|lia|nia|].
  assert (Hprice : exists price,
    (if rs >? 0 then int_truediv ra rs else Ok float_one) = Ok price).
  { destruct (Z.gtb_spec rs 0); [|eauto].
    destruct (int_truediv_total ra rs) as (p & Hp' & _); [lia|lia|nia|eauto]. }
  destruct Hprice as [price Hprice].
  exists tvl, price. split; [exact Ht|]. split; [exact Hprice|].
  unfold EtlHistory.build_metric, Etl.build_metric, int_pow, bindR.
  destruct (Z.ltb_spec d 0); [lia|].
  rewrite Ht, Hprice. split; reflexivity.
Qed.

(** C2. In both scripts, for every [raw_assets] in the range of the ABI's
    [uint256] output and every [decimals >= 0], whatever [raw_supply] is,
    the transform returns a metric whose [tvl_assets] is
    [raw_assets / 10^decimals] as Python computes it: the quotient
    correctly rounded to binary64, within half a unit in the last place of
    the exact quotient and equal to it whenever the exact quotient is a
    binary64 number. For [raw_assets = 1500000000] and [decimals = 9] it
    is 1.5. *)
Theorem tvl_is_scaled_quotient raw_assets raw_supply decimals bn dt
  (Hassets : 0 <= raw_assets < 2 ^ 256)
  (Hdecimals : 0 <= decimals) :
  (exists m1 m2 f,
      EtlHistory.build_metric raw_assets raw_supply decimals bn dt = Ok m1
      /\ Etl.build_metric raw_assets raw_supply decimals bn = Ok m2
      /\ tvl_assets m1 = Some f
      /\ tvl_assets m2 = Some f
      /\ f = b64_div raw_assets (10 ^ decimals)
      /\ rounds_quotient raw_assets (10 ^ decimals) f
      /\ forall mant e,
           bounded prec emax mant e = true ->
           represents (Z.pos mant) e raw_assets (10 ^ decimals) ->
           f = S754_finite false mant e)
  /\ (exists m1 m2,
         EtlHistory.build_metric 1500000000 1000000000 9 bn dt = Ok m1
         /\ Etl.build_metric 1500000000 1000000000 9 bn = Ok m2
         /\ tvl_assets m1 = Some float_three_halves
         /\ tvl_assets m2 = Some float_three_halves
         /\ represents 6755399441055744 (-52) 1500000000 (10 ^ 9)).
Proof.
  split.
  - destruct (build_metric_returns raw_assets raw_supply decimals bn dt
                Hassets Hdecimals) as (tvl & price & Htvl & _ & E1 & E2).
    apply int_truediv_inv in Htvl. destruct Htvl as [_ Hf].
    pose proof (pow10_pos decimals Hdecimals) as Hp.
    do 2 eexists. exists tvl.
    split; [exact E1|]. split; [exact E2|].
    split; [reflexivity|]. split; [reflexivity|]. split; [exact Hf|]. split.
    + rewrite Hf. apply b64_div_rounds; lia.
    + apply rounded_exact; [lia|lia|exact Hf].
  - eexists. eexists. split; [vm_compute; reflexivity|].
    split; [vm_compute; reflexivity|]. repeat split.
Qed.

Lemma tvl_is_scaled_quotient_witness :
  0 <= 1500000000 < 2 ^ 256
  /\ 0 <= 9
  /\ exists m1 m2 f,
       EtlHistory.build_metric 1500000000 1000000000 9 100 0 = Ok m1
       /\ Etl.build_metric 1500000000 1000000000 9 100 = Ok m2
       /\ tvl_assets m1 = Some f
       /\ tvl_assets m2 = Some f
       /\ f = b64_div 1500000000 (10 ^ 9)
       /\ rounds_quotient 1500000000 (10 ^ 9) f
       /\ forall mant e,
            bounded prec emax mant e = true ->
            represents (Z.pos mant) e 1500000000 (10 ^ 9) ->
            f = S754_finite false mant e.
Proof.
  assert (H : 0 <= 1500000000 < 2 ^ 256) by (split; [lia|reflexivity]).
  split; [exact H|]. split; [lia|].
  exact (proj1 (tvl_is_scaled_quotient 1500000000 1000000000 9 100 0
                  H ltac:(lia))).
Defined.

(** C3. In both scripts, for every [raw_assets] in the range of the ABI's
    [uint256] output and every [decimals >= 0], the transform returns a
    metric whose [share_price] is [raw_assets / raw_supply] as Python
    computes it when [raw_supply > 0] (the correctly rounded quotient,
    exact whenever the quotient is a binary64 number), and the float 1.0
    when [raw_supply] is zero (or below), whatever [raw_assets] is. *)
Theorem share_price_is_ratio_or_one raw_assets raw_supply decimals bn dt
  (Hassets : 0 <= raw_assets < 2 ^ 256)
  (Hdecimals : 0 <= decimals) :
  (exists m1 m2 f,
      EtlHistory.build_metric raw_assets raw_supply decimals bn dt = Ok m1
      /\ Etl.build_metric raw_assets raw_supply decimals bn = Ok m2
      /\ share_price m1 = Some f
      /\ share_price m2 = Some f
      /\ (0 < raw_supply ->
          f = b64_div raw_assets raw_supply
          /\ rounds_quotient raw_assets raw_supply f
          /\ forall mant e,
               bounded prec emax mant e = true ->
               represents (Z.pos mant) e raw_assets raw_supply ->
               f = S754_finite false mant e)
      /\ (raw_supply <= 0 -> f = float_one))
  /\ (exists m1 m2,
         EtlHistory.build_metric 1500000000 1000000000 9 bn dt = Ok m1
         /\ Etl.build_metric 1500000000 1000000000 9 bn = Ok m2
         /\ share_price m1 = Some float_three_halves
         /\ share_price m2 = Some float_three_halves)
  /\ represents 4503599627370496 (-52) 1 1.
Proof.
  split; [|split].
  - destruct (build_metric_returns raw_assets raw_supply decimals bn dt
                Hassets Hdecimals) as (tvl & price & _ & Hprice & E1 & E2).
    do 2 eexists. exists price.
    split; [exact E1|]. split; [exact E2|].
    split; [reflexivity|]. split; [reflexivity|]. split.
    + intros Hs. destruct (Z.gtb_spec raw_supply 0) as [_|]; [|lia].
      apply int_truediv_inv in Hprice. destruct Hprice as [_ Hf].
      split; [exact Hf|]. split.
      * rewrite Hf. apply b64_div_rounds; lia.
      * apply rounded_exact; [lia|lia|exact Hf].
    + intros Hs. destruct (Z.gtb_spec raw_supply 0) as [|_]; [lia|].
      inversion Hprice. reflexivity.
  - eexists. eexists. split; [vm_compute; reflexivity|].
    split; [vm_compute; reflexivity|]. split; reflexivity.
  - reflexivity.
Qed.

Lemma share_price_is_ratio_or_one_witness :
  0 <= 1500000000 < 2 ^ 256
  /\ 0 <= 9
  /\ exists m1 m2 f,
       EtlHistory.build_metric 1500000000 1000000000 9 100 0 = Ok m1
       /\ Etl.build_metric 1500000000 1000000000 9 100 = Ok m2
       /\ share_price m1 = Some f
       /\ share_price m2 = Some f
       /\ (0 < 1000000000 ->
           f = b64_div 1500000000 1000000000
           /\ rounds_quotient 1500000000 1000000000 f
           /\ forall mant e,
                bounded prec emax mant e = true ->
                represents (Z.pos mant) e 1500000000 1000000000 ->
                f = S754_finite false mant e)
       /\ (1000000000 <= 0 -> f = float_one).
Proof.
  assert (H : 0 <= 1500000000 < 2 ^ 256) by (split; [lia|reflexivity]).
  split; [exact H|]. split; [lia|].
  exact (proj1 (share_price_is_ratio_or_one 1500000000 1000000000 9 100 0
                  H ltac:(lia))).
Defined.

(** X1. With reads in the range of the ABI's [uint256] and [uint8] outputs
    the transform never raises, in either script. *)
Lemma build_metric_total raw_assets raw_supply decimals bn dt :
  0 <= raw_assets < 2 ^ 256 -> 0 <= raw_supply -> 0 <= decimals ->
  (exists m, EtlHistory.build_metric raw_assets raw_supply decimals bn dt = Ok m)
  /\ (exists m, Etl.build_metric raw_assets raw_supply decimals bn = Ok m).
Proof.
  intros Ha Hs Hd.
  pose proof (pow10_pos decimals Hd) as Hp.
  assert (H256 : 2 ^ 256 <= 2 ^ 1023) by (apply pow2_le; lia).
  pose proof (pow2_pos 1023 ltac:(lia)) as H1023.
  destruct (int_truediv_total raw_assets (10 ^ decimals)) as (tvl & Ht & _);
    [lia|lia|nia|].
  assert (Hprice : exists price,
    (if raw_supply >? 0 then int_truediv raw_assets raw_supply
     else Ok float_one) = Ok price).
  { destruct (Z.gtb_spec raw_supply 0); [|eauto].
    destruct (int_truediv_total raw_assets raw_supply) as (p & Hp' & _);
      [lia|lia|nia|eauto]. }
  destruct Hprice as [price Hprice].
  unfold EtlHistory.build_metric, Etl.build_metric, int_pow, bindR.
  destruct (Z.ltb_spec decimals 0); [lia|].
  rewrite Ht, Hprice. eauto.
Qed.

(** Had [block_number] been declared unique, the second sample of a block
    would be rejected and [run_live] would drop the error silently. *)
Lemma live_dedup_needs_unique_block :
  let r := EtlHistory.run_live example_env 2 300 empty_store_unique_block in
  fst r = Ok tt
  /\ stored_blocks (snd r) = [Some 350]
  /\ filter is_error_print (trace (snd r)) = [].
Proof.
  vm_compute. repeat split.
Qed.

(* ================================================================== *)
(** ** Further properties of the two scripts *)

(** *** Further properties of the transform *)

Lemma rounded_nonneg_finite a b f :
  0 <= a -> 0 < b -> int_truediv a b = Ok f -> nonneg_finite f = true.
Proof.
  intros Ha Hb. pose proof (b64_div_rounds a b Ha Hb) as Hr.
  unfold int_truediv. destruct (Z.eqb_spec b 0); [discriminate|].
  destruct (b64_div a b) as [s|s| |s m e];
    cbn [rounds_quotient] in Hr; intros H; inversion H; subst; cbn [nonneg_finite].
  - destruct Hr as [-> _]. reflexivity.
  - destruct Hr as (-> & Hbd & _). exact Hbd.
Qed.

(** X2. For non-negative reads both derived fields are canonical binary64
    numbers that are neither negative, infinite nor NaN. *)
Theorem derived_fields_nonneg_finite raw_assets raw_supply decimals bn dt m
  (Hassets : 0 <= raw_assets)
  (Hdecimals : 0 <= decimals)
  (Hbuilt : EtlHistory.build_metric raw_assets raw_supply decimals bn dt = Ok m
            \/ Etl.build_metric raw_assets raw_supply decimals bn = Ok m) :
  exists tvl price,
    tvl_assets m = Some tvl /\ share_price m = Some price
    /\ nonneg_finite tvl = true /\ nonneg_finite price = true.
Proof.
  destruct (build_metric_fields _ _ _ _ _ _ Hbuilt)
    as (tvl & price & Htvl & Hprice & _ & Hm1 & Hm2).
  exists tvl, price. split; [exact Hm1|]. split; [exact Hm2|]. split.
  - eapply rounded_nonneg_finite; [exact Hassets| |exact Htvl].
    now apply pow10_pos.
  - destruct (Z.gtb_spec raw_supply 0).
    + eapply rounded_nonneg_finite; [exact Hassets| |exact Hprice]. lia.
    + inversion Hprice. reflexivity.
Qed.

Lemma derived_fields_nonneg_finite_witness :
  0 <= 1500000000 /\ 0 <= 9
  /\ exists tvl price,
       tvl_assets example_metric = Some tvl
       /\ share_price example_metric = Some price
       /\ nonneg_finite tvl = true /\ nonneg_finite price = true.
Proof.
  split; [lia|]. split; [lia|].
  exact (derived_fields_nonneg_finite 1500000000 1000000000 9 100 0
           example_metric ltac:(lia) ltac:(lia) (or_introl eq_refl)).
Defined.






Lemma build_metric_total_witness :
  0 <= 1500000000 < 2 ^ 256 /\ 0 <= 0 /\ 0 <= 9
  /\ (exists m, EtlHistory.build_metric 1500000000 0 9 100 0 = Ok m)
  /\ (exists m, Etl.build_metric 1500000000 0 9 100 = Ok m).
Proof.
  assert (H : 0 <= 1500000000 < 2 ^ 256) by (split; [lia|reflexivity]).
  split; [exact H|]. split; [lia|]. split; [lia|].
  exact (build_metric_total 1500000000 0 9 100 0 H ltac:(lia) ltac:(lia)).
Defined.

(** X5. The two scripts' transforms raise on the same reads with the same
    exception, and otherwise agree on block number, TVL and share price;
    they differ in the timestamp and in the raw value they keep. *)
Theorem transforms_agree raw_assets raw_supply decimals bn dt :
  match EtlHistory.build_metric raw_assets raw_supply decimals bn dt,
        Etl.build_metric raw_assets raw_supply decimals bn with
  | Ok m1, Ok m2 =>
      block_number m1 = block_number m2
      /\ tvl_assets m1 = tvl_assets m2
      /\ share_price m1 = share_price m2
      /\ timestamp m1 = Some dt /\ timestamp m2 = None
      /\ raw_total_assets m1 = None
      /\ option_map int_of_str (raw_total_assets m2) = Some (Some raw_assets)
  | Raise e1, Raise e2 => e1 = e2
  | _, _ => False
  end.
Proof.
  unfold EtlHistory.build_metric, Etl.build_metric, bindR.
  destruct (int_pow 10 decimals); [|reflexivity].
  destruct (int_truediv raw_assets a); [|reflexivity].
  destruct (if raw_supply >? 0 then int_truediv raw_assets raw_supply
            else Ok float_one); [|reflexivity].
  simpl. rewrite str_int_roundtrip. auto 10.
Qed.

(** *** Traces *)

Lemma requests_app t1 t2 : requests (t1 ++ t2) = requests t1 ++ requests t2.
Proof.
  induction t1 as [|ev t1 IH]; [reflexivity|].
  destruct ev; simpl; rewrite IH; reflexivity.
Qed.

Lemma sleeps_app t1 t2 : sleeps (t1 ++ t2) = sleeps t1 ++ sleeps t2.
Proof.
  induction t1 as [|ev t1 IH]; [reflexivity|].
  destruct ev; simpl; rewrite IH; reflexivity.
Qed.

Lemma printed_app t1 t2 : printed (t1 ++ t2) = printed t1 ++ printed t2.
Proof.
  induction t1 as [|ev t1 IH]; [reflexivity|].
  destruct ev; simpl; rewrite IH; reflexivity.
Qed.

Lemma trace_of_rpcs rs :
  requests (map EvRpc rs) = rs /\ sleeps (map EvRpc rs) = []
  /\ printed (map EvRpc rs) = [] /\ filter is_insert (map EvRpc rs) = [].
Proof.
  induction rs as [|r rs (H1 & H2 & H3 & H4)]; simpl; [auto|].
  rewrite H1. auto.
Qed.

Lemma trace_of_inserts rs :
  requests (map EvInsert rs) = [] /\ sleeps (map EvInsert rs) = []
  /\ printed (map EvInsert rs) = [].
Proof. induction rs as [|r rs (H1 & H2 & H3)]; simpl; auto. Qed.

Lemma log_log evs1 evs2 st : log evs2 (log evs1 st) = log (evs1 ++ evs2) st.
Proof. unfold log. simpl. now rewrite <- app_assoc. Qed.

Lemma sample_requests_length c b :
  (1 <= List.length (sample_requests c b) <= 4)%nat.
Proof.
  unfold sample_requests.
  destruct (totalAssets c (BlockNum b)); simpl; [|lia].
  destruct (totalSupply c (BlockNum b)); simpl; [|lia].
  destruct (decimals c Latest); simpl; lia.
Qed.

Lemma sample_requests_for c b : Forall (request_for b) (sample_requests c b).
Proof.
  unfold sample_requests.
  destruct (totalAssets c (BlockNum b)); [|].
  2:{ repeat first [apply Forall_nil | apply Forall_cons; [unfold request_for; auto 6|]]. }
  destruct (totalSupply c (BlockNum b)); [|].
  2:{ repeat first [apply Forall_nil | apply Forall_cons; [unfold request_for; auto 6|]]. }
  destruct (decimals c Latest);
    repeat first [apply Forall_nil | apply Forall_cons; [unfold request_for; auto 6|]].
Qed.

(** [get_data_at_block] is [sample] together with the requests it sends;
    it changes nothing but the trace. *)
Lemma get_data_at_block_eq env b st :
  EtlHistory.get_data_at_block env b st
  = (sample (chain env (tick st)) b,
     log (map EvRpc (sample_requests (chain env (tick st)) b)) st).
Proof.
  unfold EtlHistory.get_data_at_block, sample, sample_requests, bind, rpc, lift, bindR.
  cbn [tick log].
  destruct (totalAssets (chain env (tick st)) (BlockNum b)); [|reflexivity].
  destruct (totalSupply (chain env (tick st)) (BlockNum b));
    [|rewrite log_log; reflexivity].
  destruct (decimals (chain env (tick st)) Latest);
    [|rewrite !log_log; reflexivity].
  destruct (get_block (chain env (tick st)) (BlockNum b));
    rewrite !log_log; reflexivity.
Qed.

Lemma flush_appends schema now pend rs next rs' stored next' :
  flush schema now rs next pend = Ok (rs', stored, next') ->
  rs' = rs ++ stored /\ List.length stored = List.length pend.
Proof.
  intros H. destruct (flush_stored _ _ _ _ _ _ _ _ H) as [-> HF].
  split; [reflexivity|]. symmetry. eapply Forall2_length; eauto.
Qed.

(** One turn of the backfill loop, with its trace: the requests of the
    sample, then a pause only if the sample succeeded, then the insert or
    the rollback. *)
Lemma backfill_block_turn env b st :
  pending st = [] ->
  exists st' tail l,
    EtlHistory.backfill_block env b st = (Ok tt, st')
    /\ tick st' = S (tick st) /\ pending st' = []
    /\ db_schema st' = db_schema st /\ table_exists st' = table_exists st
    /\ trace st' = trace st
                   ++ map EvRpc (sample_requests (chain env (tick st)) b) ++ tail
    /\ requests tail = []
    /\ sleeps tail = (if sample_ok env (tick st) b then [100] else [])
    /\ rows st' = rows st ++ l /\ (List.length l <= 1)%nat.
Proof.
  intros Hp. unfold EtlHistory.backfill_block, bind, try_except.
  rewrite get_data_at_block_eq. unfold sample_ok.
  destruct (sample (chain env (tick st)) b) as [m|e].
  - unfold sleep, session_add, session_commit, print, session_rollback, next_tick.
    cbn -[flush]. rewrite Hp. cbn -[flush].
    destruct (db_fault env (tick st)) as [e|].
    + eexists. exists [EvSleep 100; EvRollback; EvPrint (MsgBackfillError b e)], [].
      split; [reflexivity|]. cbn. rewrite <- !app_assoc, app_nil_r.
      repeat split; auto.
    + destruct (flush _ _ _ _ _) as [[[rows' stored] next']|e] eqn:Ef.
      * destruct (flush_appends _ _ _ _ _ _ _ _ Ef) as [-> Hl].
        destruct (trace_of_inserts stored) as (Hi1 & Hi2 & Hi3).
        eexists.
        exists ([EvSleep 100] ++ map EvInsert stored ++ [EvPrint (MsgBackfillLoaded b)]),
               stored.
        split; [reflexivity|]. cbn.
        rewrite requests_app, sleeps_app, Hi1, Hi2, <- !app_assoc. cbn.
        repeat split; auto. simpl in Hl. lia.
      * eexists. exists [EvSleep 100; EvRollback; EvPrint (MsgBackfillError b e)], [].
        split; [reflexivity|]. cbn. rewrite <- !app_assoc, app_nil_r.
        repeat split; auto.
  - unfold session_rollback, print, next_tick. cbn.
    eexists. exists [EvRollback; EvPrint (MsgBackfillError b e)], [].
    split; [reflexivity|]. cbn. rewrite <- !app_assoc, app_nil_r.
    repeat split; auto.
Qed.

(** The whole loop: the trace gains, for each stride block in turn, the
    requests of its sample; it pauses once per successful sample; it
    appends at most one row per block. *)
Lemma backfill_loop_trace env blocks : forall st,
  pending st = [] ->
  exists st' reqs l,
    for_each blocks (EtlHistory.backfill_block env) st = (Ok tt, st')
    /\ pending st' = []
    /\ requests (trace st') = requests (trace st) ++ reqs
    /\ (List.length blocks <= List.length reqs <= 4 * List.length blocks)%nat
    /\ Forall (fun r => exists b, In b blocks /\ request_for b r) reqs
    /\ sleeps (trace st')
       = sleeps (trace st) ++ map (fun _ => 100) (sampled_ok env (tick st) blocks)
    /\ rows st' = rows st ++ l
    /\ (List.length l <= List.length blocks)%nat.
Proof.
  induction blocks as [|b blocks IH]; intros st Hp.
  - exists st, [], []. cbn. rewrite !app_nil_r. repeat split; auto.
  - destruct (backfill_block_turn env b st Hp)
      as (st1 & tail & l1 & E1 & Ht & Hp1 & _ & _ & Htr & Hrq & Hsl & Hr1 & Hl1).
    destruct (IH st1 Hp1) as (st2 & reqs & l2 & E2 & Hp2 & Hq2 & Hn2 & Hf2 & Hs2 & Hr2 & Hl2).
    cbn [for_each]. unfold bind. rewrite E1, E2.
    destruct (trace_of_rpcs (sample_requests (chain env (tick st)) b))
      as (Hc1 & Hc2 & _ & _).
    pose proof (sample_requests_length (chain env (tick st)) b) as Hlen.
    exists st2, (sample_requests (chain env (tick st)) b ++ reqs), (l1 ++ l2).
    split; [reflexivity|]. split; [exact Hp2|]. split.
    { rewrite Hq2, Htr, !requests_app, Hc1, Hrq, app_nil_r, <- app_assoc.
      reflexivity. }
    split. { rewrite length_app. cbn [List.length]. lia. }
    split.
    { apply Forall_app. split.
      - eapply Forall_impl; [|apply sample_requests_for].
        intros r Hr. exists b. split; [left; reflexivity|exact Hr].
      - eapply Forall_impl; [|exact Hf2].
        intros r (b' & Hin & Hr). exists b'. split; [right; exact Hin|exact Hr]. }
    split.
    { rewrite Hs2, Htr, !sleeps_app, Hc2, Hsl, Ht. cbn [sampled_ok].
      rewrite map_app, <- !app_assoc. cbn.
      destruct (sample_ok env (tick st) b); reflexivity. }
    split. { rewrite Hr2, Hr1, <- app_assoc. reflexivity. }
    rewrite length_app. cbn [List.length]. lia.
Qed.

(** *** The backfill as a whole *)

Lemma backfill_history_enter env cfg step st head :
  step <> 0 -> rows st = [] -> db_fault env (tick st) = None ->
  get_block (chain env (tick st)) Latest = Ok head ->
  exists st1,
    for_each (stride_blocks cfg (number head) step)
      (EtlHistory.backfill_block env) (backfill_entry st) = (Ok tt, st1)
    /\ EtlHistory.backfill_history env cfg step st
       = (Ok tt, set_pending [] (log [EvPrint MsgBackfillDone] st1)).
Proof.
  intros Hstep Hrows Hdb Hhead.
  destruct (backfill_loop_trace env (stride_blocks cfg (number head) step)
              (backfill_entry st) eq_refl) as (st1 & _ & _ & E & _).
  exists st1. split; [exact E|].
  unfold EtlHistory.backfill_history, bind, Session, query_count, print, rpc,
    lift, next_tick, session_close.
  cbn [tick set_pending log]. rewrite Hdb. cbn [rows set_pending].
  rewrite Hrows. cbn [List.length Z.of_nat Z.eqb]. cbn [tick log set_pending].
  rewrite Hhead. unfold py_range.
  destruct (Z.eqb_spec step 0); [contradiction|].
  change (for_each _ _ _) with
    (for_each (stride_blocks cfg (number head) step)
       (EtlHistory.backfill_block env) (backfill_entry st)).
  rewrite E. reflexivity.
Qed.

Lemma backfill_entry_trace st :
  requests (trace (backfill_entry st)) = requests (trace st) ++ [ReqGetBlock Latest]
  /\ sleeps (trace (backfill_entry st)) = sleeps (trace st)
  /\ rows (backfill_entry st) = rows st
  /\ tick (backfill_entry st) = S (tick st)
  /\ next_id (backfill_entry st) = next_id st
  /\ db_schema (backfill_entry st) = db_schema st.
Proof.
  unfold backfill_entry. cbn.
  rewrite !requests_app, !sleeps_app. cbn. rewrite !app_nil_r. auto 10.
Qed.

(** X6. The request budget of a backfill on an empty table: one head
    request, then between one and four requests per stride block, each of
    them for a stride block or for the decimals at the head. *)
Theorem backfill_request_budget env cfg step st head
  (Hstep : 0 < step)
  (Hempty : rows st = [])
  (Hdb : db_fault env (tick st) = None)
  (Hhead : get_block (chain env (tick st)) Latest = Ok head) :
  let blocks := stride_blocks cfg (number head) step in
  exists reqs,
    requests (trace (snd (EtlHistory.backfill_history env cfg step st)))
    = requests (trace st) ++ ReqGetBlock Latest :: reqs
    /\ (List.length blocks <= List.length reqs <= 4 * List.length blocks)%nat
    /\ Forall (fun r => exists b, In b blocks /\ request_for b r) reqs.
Proof.
  intros blocks.
  destruct (backfill_history_enter env cfg step st head) as (st1 & E & ->);
    auto; [lia|].
  destruct (backfill_loop_trace env blocks (backfill_entry st) eq_refl)
    as (st1' & reqs & l & E' & _ & Hq & Hn & Hf & _).
  fold blocks in E. rewrite E in E'. inversion E'; subst st1'.
  destruct (backfill_entry_trace st) as (Hq0 & _).
  exists reqs. split; [|split; assumption].
  cbn. rewrite requests_app, Hq, Hq0. cbn. rewrite app_nil_r, <- app_assoc.
  reflexivity.
Qed.

Lemma backfill_request_budget_witness :
  0 < 100 /\ rows empty_store = []
  /\ exists reqs,
       requests (trace (snd (EtlHistory.backfill_history example_env
                               (example_cfg 100) 100 empty_store)))
       = requests (trace empty_store) ++ ReqGetBlock Latest :: reqs
       /\ (3 <= List.length reqs <= 12)%nat.
Proof.
  split; [lia|]. split; [reflexivity|].
  destruct (backfill_request_budget example_env (example_cfg 100) 100
              empty_store {| number := 350; block_timestamp := 1700000350 |}
              ltac:(lia) eq_refl eq_refl eq_refl) as (reqs & Hq & Hn & _).
  exists reqs. split; [exact Hq|exact Hn].
Defined.

(** X7. Pacing: the backfill pauses 100 ms once for every stride block
    whose sample succeeded, and does not pause after a failed sample. *)
Theorem backfill_pauses_after_successful_samples env cfg step st head
  (Hstep : 0 < step)
  (Hempty : rows st = [])
  (Hdb : db_fault env (tick st) = None)
  (Hhead : get_block (chain env (tick st)) Latest = Ok head) :
  sleeps (trace (snd (EtlHistory.backfill_history env cfg step st)))
  = sleeps (trace st)
    ++ map (fun _ => 100)
         (sampled_ok env (S (tick st)) (stride_blocks cfg (number head) step)).
Proof.
  destruct (backfill_history_enter env cfg step st head) as (st1 & E & ->);
    auto; [lia|].
  destruct (backfill_loop_trace env (stride_blocks cfg (number head) step)
              (backfill_entry st) eq_refl)
    as (st1' & reqs & l & E' & _ & _ & _ & _ & Hs & _).
  rewrite E in E'. inversion E'; subst st1'.
  destruct (backfill_entry_trace st) as (_ & Hs0 & _ & Ht0 & _).
  cbn. rewrite sleeps_app, Hs, Hs0, Ht0. cbn. now rewrite app_nil_r.
Qed.

Lemma backfill_pauses_after_successful_samples_witness :
  0 < 100 /\ rows empty_store = []
  /\ sleeps (trace (snd (EtlHistory.backfill_history example_env
                           (example_cfg 100) 100 empty_store)))
     = [100; 100; 100].
Proof.
  split; [lia|]. split; [reflexivity|].
  exact (backfill_pauses_after_successful_samples example_env (example_cfg 100)
           100 empty_store {| number := 350; block_timestamp := 1700000350 |}
           ltac:(lia) eq_refl eq_refl eq_refl).
Defined.

Lemma expected_blocks_sorted env : forall blocks t,
  StronglySorted Z.lt blocks ->
  StronglySorted Z.lt (expected_blocks env t blocks)
  /\ incl (expected_blocks env t blocks) blocks.
Proof.
  induction blocks as [|b blocks IH]; intros t Hs; cbn [expected_blocks].
  - split; [constructor|apply incl_refl].
  - inversion Hs as [|? ? Hs' Hall]; subst.
    destruct (IH (S t) Hs') as [IH1 IH2].
    destruct (block_ok env t b); cbn [app].
    + split.
      * constructor; [exact IH1|].
        rewrite Forall_forall in *. intros x Hx. apply Hall, IH2, Hx.
      * intros x [->|Hx]; [left; reflexivity|right; apply IH2, Hx].
    + split; [exact IH1|]. intros x Hx. right. apply IH2, Hx.
Qed.

(** X8. After a backfill of an empty table the stored block numbers are
    strictly increasing and all of them are stride blocks. *)
Theorem backfill_stores_increasing_blocks env cfg step st head
  (Hstep : 0 < step)
  (Hempty : rows st = [])
  (Hschema : db_schema st = vault_metrics)
  (Hdb : db_fault env (tick st) = None)
  (Hhead : get_block (chain env (tick st)) Latest = Ok head) :
  exists bs,
    stored_blocks (snd (EtlHistory.backfill_history env cfg step st)) = map Some bs
    /\ StronglySorted Z.lt bs
    /\ incl bs (stride_blocks cfg (number head) step).
Proof.
  destruct (backfill_history_enter env cfg step st head) as (st1 & E & ->);
    auto; [lia|].
  destruct (backfill_entry_trace st) as (_ & _ & Hr0 & Ht0 & Hn0 & Hs0).
  destruct (backfill_loop_rows env (stride_blocks cfg (number head) step)
              (backfill_entry st)) as [Hst _].
  { congruence. } { reflexivity. } { rewrite Hr0, Hempty. constructor. }
  rewrite E in Hst. cbn [snd] in Hst.
  exists (expected_blocks env (S (tick st)) (stride_blocks cfg (number head) step)).
  split.
  { unfold stored_blocks in *. cbn. rewrite Hst, Hr0, Hempty, Ht0. reflexivity. }
  apply expected_blocks_sorted. apply range_items_sorted. exact Hstep.
Qed.

Lemma backfill_stores_increasing_blocks_witness :
  0 < 100 /\ rows empty_store = [] /\ db_schema empty_store = vault_metrics
  /\ exists bs,
       stored_blocks (snd (EtlHistory.backfill_history example_env
                             (example_cfg 100) 100 empty_store)) = map Some bs
       /\ StronglySorted Z.lt bs
       /\ incl bs [100; 200; 300].
Proof.
  split; [lia|]. split; [reflexivity|]. split; [reflexivity|].
  exact (backfill_stores_increasing_blocks example_env (example_cfg 100) 100
           empty_store {| number := 350; block_timestamp := 1700000350 |}
           ltac:(lia) eq_refl eq_refl eq_refl eq_refl).
Defined.

(** X9. A zero stride is an error of the caller: on an empty table the
    backfill asks for the head and then raises [ValueError] from [range],
    outside the per-block handler; no block is sampled and nothing is
    stored. *)
Theorem backfill_zero_step_raises env cfg st head
  (Hempty : rows st = [])
  (Hdb : db_fault env (tick st) = None)
  (Hhead : get_block (chain env (tick st)) Latest = Ok head) :
  let r := EtlHistory.backfill_history env cfg 0 st in
  fst r = Raise (ValueError "range() arg 3 must not be zero")
  /\ rows (snd r) = []
  /\ requests (trace (snd r)) = requests (trace st) ++ [ReqGetBlock Latest]
  /\ sampled_blocks (trace (snd r)) = sampled_blocks (trace st).
Proof.
  unfold EtlHistory.backfill_history, bind, Session, query_count, print, rpc,
    lift, next_tick, session_close.
  cbn [tick set_pending log]. rewrite Hdb. cbn [rows set_pending].
  rewrite Hempty. cbn [List.length Z.of_nat Z.eqb]. cbn [tick log set_pending].
  rewrite Hhead. cbn.
  rewrite !requests_app, !sampled_blocks_app. cbn. rewrite !app_nil_r. auto.
Qed.

Lemma backfill_zero_step_raises_witness :
  rows empty_store = []
  /\ fst (EtlHistory.backfill_history example_env (example_cfg 100) 0 empty_store)
     = Raise (ValueError "range() arg 3 must not be zero").
Proof.
  split; [reflexivity|].
  exact (proj1 (backfill_zero_step_raises example_env (example_cfg 100)
                  empty_store {| number := 350; block_timestamp := 1700000350 |}
                  eq_refl eq_refl eq_refl)).
Defined.

Lemma stride_blocks_nil cfg head step :
  0 < step -> head <= EtlHistory.DEPLOYMENT_BLOCK cfg ->
  stride_blocks cfg head step = [].
Proof.
  intros Hs Hh. unfold stride_blocks, range_length.
  destruct (Z.ltb_spec 0 step); [|lia].
  destruct (Z.ltb_spec (EtlHistory.DEPLOYMENT_BLOCK cfg) head); [lia|].
  reflexivity.
Qed.

(** X10. When the chain head is not beyond the deployment block there is
    nothing to sample: the backfill returns normally after the head
    request and the table stays empty, so the row-count guard does not
    latch. *)
Theorem backfill_before_deployment_is_empty env cfg step st head
  (Hstep : 0 < step)
  (Hempty : rows st = [])
  (Hdb : db_fault env (tick st) = None)
  (Hhead : get_block (chain env (tick st)) Latest = Ok head)
  (Hbehind : number head <= EtlHistory.DEPLOYMENT_BLOCK cfg) :
  let r := EtlHistory.backfill_history env cfg step st in
  fst r = Ok tt
  /\ rows (snd r) = []
  /\ requests (trace (snd r)) = requests (trace st) ++ [ReqGetBlock Latest]
  /\ printed (trace (snd r))
     = printed (trace st) ++ [MsgBackfillStart; MsgBackfillDone].
Proof.
  cbv zeta.
  destruct (backfill_history_enter env cfg step st head) as (st1 & E & ->);
    auto; [lia|].
  rewrite stride_blocks_nil in E by assumption. cbn in E. inversion E; subst st1.
  cbn. rewrite !requests_app, !printed_app. cbn. rewrite !app_nil_r.
  rewrite <- !app_assoc. auto.
Qed.

Lemma backfill_before_deployment_is_empty_witness :
  0 < 100 /\ 350 <= 400
  /\ fst (EtlHistory.backfill_history example_env (example_cfg 400) 100 empty_store)
     = Ok tt
  /\ rows (snd (EtlHistory.backfill_history example_env (example_cfg 400) 100
                  empty_store)) = [].
Proof.
  split; [lia|]. split; [lia|].
  pose proof (backfill_before_deployment_is_empty example_env (example_cfg 400)
                100 empty_store {| number := 350; block_timestamp := 1700000350 |}
                ltac:(lia) eq_refl eq_refl eq_refl ltac:(simpl; lia)) as H.
  exact (conj (proj1 H) (proj1 (proj2 H))).
Defined.

(** X11. The prelude of the backfill is not guarded: a store fault during
    the count query, or a failed head read on an empty table, leaves
    [backfill_history] with that exception; no block is sampled, nothing
    is stored. *)
Theorem backfill_prelude_error_propagates env cfg step st e
  (Hfail : db_fault env (tick st) = Some e
           \/ (db_fault env (tick st) = None /\ rows st = []
               /\ get_block (chain env (tick st)) Latest = Raise e)) :
  let r := EtlHistory.backfill_history env cfg step st in
  fst r = Raise e
  /\ rows (snd r) = rows st
  /\ sampled_blocks (trace (snd r)) = sampled_blocks (trace st)
  /\ filter is_insert (trace (snd r)) = filter is_insert (trace st).
Proof.
  unfold EtlHistory.backfill_history, bind, Session, query_count, print, rpc,
    lift, next_tick, session_close.
  cbn [tick set_pending log].
  destruct Hfail as [Hdb|(Hdb & Hempty & Hhead)]; rewrite Hdb.
  - cbn. rewrite sampled_blocks_app, filter_app. cbn. rewrite !app_nil_r. auto.
  - cbn [rows set_pending]. rewrite Hempty.
    cbn [List.length Z.of_nat Z.eqb]. cbn [tick log set_pending].
    rewrite Hhead. cbn.
    rewrite !sampled_blocks_app, !filter_app. cbn. rewrite !app_nil_r. auto.
Qed.

Lemma backfill_prelude_error_propagates_witness :
  get_block (chain (world (fun _ => dead_reader)) (tick empty_store)) Latest
  = Raise (RpcError "connection refused")
  /\ fst (EtlHistory.backfill_history (world (fun _ => dead_reader))
            (example_cfg 100) 100 empty_store)
     = Raise (RpcError "connection refused").
Proof.
  split; [reflexivity|].
  exact (proj1 (backfill_prelude_error_propagates (world (fun _ => dead_reader))
                  (example_cfg 100) 100 empty_store _
                  (or_intror (conj eq_refl (conj eq_refl eq_refl))))).
Defined.

(** On a table that holds a row the backfill leaves rows and requests as
    they are. *)
Lemma backfill_history_skip env cfg step st :
  rows st <> [] ->
  rows (snd (EtlHistory.backfill_history env cfg step st)) = rows st
  /\ requests (trace (snd (EtlHistory.backfill_history env cfg step st)))
     = requests (trace st).
Proof.
  intros Hne.
  unfold EtlHistory.backfill_history, bind, Session, query_count, print,
    session_close.
  cbn [tick set_pending log].
  destruct (db_fault env (tick st)).
  - cbn. rewrite requests_app. cbn. now rewrite app_nil_r.
  - cbn [rows set_pending].
    destruct (Z.eqb_spec (Z.of_nat (List.length (rows st))) 0) as [E|_].
    { destruct (rows st); [contradiction|simpl in E; lia]. }
    cbn. rewrite !requests_app. cbn. now rewrite !app_nil_r.
Qed.

(** X12. The one-shot guard latches exactly when something was stored: if
    at least one stride block went through, every later backfill, with
    any stride and whatever the node answers, stores and requests
    nothing, so the blocks that failed are never filled in; if none went
    through, the table is still empty and the next start tries again. *)
Theorem backfill_latches_after_first_stored_block env cfg step st head
  (Hstep : 0 < step)
  (Hempty : rows st = [])
  (Hschema : db_schema st = vault_metrics)
  (Hdb : db_fault env (tick st) = None)
  (Hhead : get_block (chain env (tick st)) Latest = Ok head) :
  let st1 := snd (EtlHistory.backfill_history env cfg step st) in
  let stored :=
    expected_blocks env (S (tick st)) (stride_blocks cfg (number head) step) in
  (stored = [] -> rows st1 = [])
  /\ (stored <> [] ->
      forall env' cfg' step',
        rows (snd (EtlHistory.backfill_history env' cfg' step' st1)) = rows st1
        /\ requests (trace (snd (EtlHistory.backfill_history env' cfg' step' st1)))
           = requests (trace st1)).
Proof.
  intros st1 stored.
  assert (Hst : stored_blocks st1 = map Some stored).
  { subst st1 stored.
    destruct (backfill_history_enter env cfg step st head) as (s1 & E & ->);
      auto; [lia|].
    destruct (backfill_entry_trace st) as (_ & _ & Hr0 & Ht0 & Hn0 & Hs0).
    destruct (backfill_loop_rows env (stride_blocks cfg (number head) step)
                (backfill_entry st)) as [Hst _].
    { congruence. } { reflexivity. } { rewrite Hr0, Hempty. constructor. }
    rewrite E in Hst. cbn [snd] in Hst.
    unfold stored_blocks in *. cbn. rewrite Hst, Hr0, Hempty, Ht0. reflexivity. }
  unfold stored_blocks in Hst. split.
  - intros E. rewrite E in Hst. cbn in Hst.
    destruct (rows st1); [reflexivity|discriminate].
  - intros Hne env' cfg' step'. apply backfill_history_skip.
    intros E. rewrite E in Hst. cbn in Hst.
    destruct stored; [contradiction|discriminate].
Qed.

Lemma backfill_latches_after_first_stored_block_witness :
  0 < 100 /\ rows empty_store = []
  /\ rows (snd (EtlHistory.backfill_history (world (fun _ => dead_reader))
                  (example_cfg 100) 50000 populated_store))
     = rows populated_store.
Proof.
  split; [lia|]. split; [reflexivity|].
  exact (proj1 (proj2 (backfill_latches_after_first_stored_block example_env
                  (example_cfg 100) 100 empty_store
                  {| number := 350; block_timestamp := 1700000350 |}
                  ltac:(lia) eq_refl eq_refl eq_refl eq_refl)
                  ltac:(vm_compute; discriminate)
                  (world (fun _ => dead_reader)) (example_cfg 100) 50000)).
Defined.

(** *** The live loop of [etl_with_history.py] *)

Lemma prefix_spec n : forall h,
  prefix n h = true <-> exists post, h = String.append n post.
Proof.
  induction n as [|a n IH]; intros h.
  - split; [intros _; exists h; reflexivity|].
    intros _. destruct h; reflexivity.
  - destruct h as [|b h]; simpl.
    + split; [discriminate|intros [post H]; discriminate].
    + destruct (ascii_dec a b) as [->|Hne].
      * rewrite IH. split; intros [post H]; exists post.
        -- now rewrite H.
        -- now inversion H.
      * split; [discriminate|]. intros [post H]. simpl in H. congruence.
Qed.

(** [needle in hay] holds exactly when [hay] is some text, the needle,
    some text. *)
Lemma contains_spec n : forall h,
  contains n h = true
  <-> exists pre post, h = String.append pre (String.append n post).
Proof.
  induction h as [|c h IH]; cbn [contains].
  - destruct (prefix n "") eqn:Ep.
    + split; [intros _|reflexivity].
      apply prefix_spec in Ep. destruct Ep as [post H].
      exists ""%string, post. exact H.
    + split; [discriminate|]. intros (pre & post & H).
      destruct pre; cbn in H; [|discriminate].
      assert (prefix n "" = true) by (apply prefix_spec; eauto). congruence.
  - destruct (prefix n (String c h)) eqn:Ep.
    + split; [intros _|reflexivity].
      apply prefix_spec in Ep. destruct Ep as [post H].
      exists ""%string, post. exact H.
    + rewrite IH. split.
      * intros (pre & post & H). exists (String c pre), post. cbn. now rewrite H.
      * intros (pre & post & H). destruct pre as [|c' pre]; cbn in H.
        -- assert (prefix n (String c h) = true) by (apply prefix_spec; eauto).
           congruence.
        -- inversion H. eauto.
Qed.

Lemma live_handler_turn e st :
  exists st' tail,
    EtlHistory.live_handler e st = (Ok tt, st')
    /\ tick st' = tick st /\ rows st' = rows st /\ next_id st' = next_id st
    /\ db_schema st' = db_schema st /\ pending st' = []
    /\ trace st' = trace st ++ EvRollback :: tail
    /\ requests tail = [] /\ sleeps tail = []
    /\ tail = (if contains "unique constraint" (lower (str_exn e)) then []
               else [EvPrint (MsgLiveError e)]).
Proof.
  unfold EtlHistory.live_handler, bind, session_rollback, print, ret.
  destruct (contains "unique constraint" (lower (str_exn e))); cbn.
  - eexists. exists []. split; [reflexivity|]. cbn. auto 10.
  - eexists. exists [EvPrint (MsgLiveError e)]. split; [reflexivity|]. cbn.
    rewrite <- app_assoc. auto 10.
Qed.

(** X13. The handler of [run_live] rolls back, never re-raises, and
    decides by the text alone: the error is printed unless its lower-cased
    text contains "unique constraint", whatever the class of the
    exception. *)
Theorem live_handler_filters_by_text e st :
  let r := EtlHistory.live_handler e st in
  fst r = Ok tt
  /\ rows (snd r) = rows st
  /\ pending (snd r) = []
  /\ ((exists pre post,
          lower (str_exn e)
          = String.append pre (String.append "unique constraint" post)) ->
      trace (snd r) = trace st ++ [EvRollback])
  /\ (~ (exists pre post,
            lower (str_exn e)
            = String.append pre (String.append "unique constraint" post)) ->
      trace (snd r) = trace st ++ [EvRollback; EvPrint (MsgLiveError e)]).
Proof.
  destruct (live_handler_turn e st)
    as (st' & tail & E & _ & Hr & _ & _ & Hp & Ht & _ & _ & Htail).
  cbv zeta. rewrite E. cbn [fst snd].
  split; [reflexivity|]. split; [exact Hr|]. split; [exact Hp|].
  rewrite Ht, Htail.
  destruct (contains "unique constraint" (lower (str_exn e))) eqn:Ec; split.
  - reflexivity.
  - intros Hn. exfalso. apply Hn. now apply contains_spec.
  - intros Hy. apply contains_spec in Hy. congruence.
  - reflexivity.
Qed.

(** One turn of [run_live], whatever happens in it. *)
Lemma run_live_iteration_turn env interval st :
  exists st' delta l,
    EtlHistory.run_live_iteration env interval st = (Ok tt, st')
    /\ tick st' = S (tick st) /\ pending st' = []
    /\ db_schema st' = db_schema st
    /\ trace st' = trace st ++ delta
    /\ sleeps delta = [interval * 1000]
    /\ (1 <= List.length (requests delta) <= 5)%nat
    /\ rows st' = rows st ++ l /\ (List.length l <= 1)%nat
    /\ (live_ok env (tick st) = false -> l = []).
Proof.
  unfold EtlHistory.run_live_iteration.
  unfold bind at 1 2 3. unfold Session at 1. unfold try_finally, try_except.
  unfold bind at 1. unfold rpc at 1. cbn [tick set_pending]. unfold live_ok.
  (* what the handler contributes, after some requests *)
  assert (Hh : forall e s rs,
    tick s = tick st -> rows s = rows st -> db_schema s = db_schema st ->
    trace s = trace st ++ EvRpc (ReqGetBlock Latest) :: map EvRpc rs ->
    (List.length rs <= 4)%nat ->
    exists st' delta l,
      (let (r, st'0) :=
         let (r, st'0) := EtlHistory.live_handler e s in (r, set_pending [] st'0) in
       match r with
       | Ok _ => (sleep (interval * 1000);; next_tick) st'0
       | Raise e0 => (Raise e0, st'0)
       end) = (Ok tt, st')
      /\ tick st' = S (tick st) /\ pending st' = []
      /\ db_schema st' = db_schema st
      /\ trace st' = trace st ++ delta
      /\ sleeps delta = [interval * 1000]
      /\ (1 <= List.length (requests delta) <= 5)%nat
      /\ rows st' = rows st ++ l /\ (List.length l <= 1)%nat
      /\ l = []).
  { intros e s rs Hts Hrs Hss Htrs Hlen.
    destruct (live_handler_turn e s)
      as (s' & tail & -> & Ht & Hr & _ & Hsch & _ & Htr & Hq & Hs & _).
    destruct (trace_of_rpcs rs) as (Hc1 & Hc2 & _ & _).
    unfold bind, sleep, next_tick. cbn.
    eexists.
    exists ((EvRpc (ReqGetBlock Latest) :: map EvRpc rs) ++ (EvRollback :: tail)
            ++ [EvSleep (interval * 1000)]), [].
    split; [reflexivity|]. cbn.
    rewrite Ht, Hsch, Htr, Hr, Hts, Hrs, Hss, Htrs.
    rewrite !sleeps_app, !requests_app. cbn.
    rewrite !sleeps_app, !requests_app, Hc1, Hc2, Hq, Hs, !length_app. cbn.
    rewrite <- !app_assoc, app_nil_r. cbn.
    repeat split; auto; try lia. }
  assert (Hfail : forall X : result unit * State,
    (exists st' delta l,
       X = (Ok tt, st')
       /\ tick st' = S (tick st) /\ pending st' = []
       /\ db_schema st' = db_schema st
       /\ trace st' = trace st ++ delta
       /\ sleeps delta = [interval * 1000]
       /\ (1 <= List.length (requests delta) <= 5)%nat
       /\ rows st' = rows st ++ l /\ (List.length l <= 1)%nat
       /\ l = []) ->
    forall P : Prop,
    exists st' delta l,
       X = (Ok tt, st')
       /\ tick st' = S (tick st) /\ pending st' = []
       /\ db_schema st' = db_schema st
       /\ trace st' = trace st ++ delta
       /\ sleeps delta = [interval * 1000]
       /\ (1 <= List.length (requests delta) <= 5)%nat
       /\ rows st' = rows st ++ l /\ (List.length l <= 1)%nat
       /\ (P -> l = [])).
  { intros X (st' & delta & l & H) P. exists st', delta, l.
    decompose [and] H. repeat split; auto; lia. }
  destruct (get_block (chain env (tick st)) Latest) as [head|e].
  2:{ apply Hfail. apply (Hh e _ []); try reflexivity. simpl; lia. }
  unfold bind at 1. rewrite get_data_at_block_eq. cbn [tick log set_pending].
  pose proof (sample_requests_length (chain env (tick st)) (number head)) as Hlen.
  unfold block_ok.
  destruct (sample (chain env (tick st)) (number head)) as [m|e].
  2:{ apply Hfail.
      apply (Hh e _ (sample_requests (chain env (tick st)) (number head)));
        try reflexivity; [|lia].
      cbn. rewrite <- app_assoc. reflexivity. }
  unfold bind, session_add, session_commit, print, session_close.
  cbn -[flush sleep next_tick].
  destruct (db_fault env (tick st)) as [e|].
  { apply Hfail.
    apply (Hh e _ (sample_requests (chain env (tick st)) (number head)));
      try reflexivity; [|lia].
    cbn. rewrite <- app_assoc. reflexivity. }
  destruct (flush _ _ _ _ _) as [[[rows' stored] next']|e] eqn:Ef.
  - destruct (flush_appends _ _ _ _ _ _ _ _ Ef) as [-> Hl].
    destruct (trace_of_inserts stored) as (Hi1 & Hi2 & Hi3).
    destruct (trace_of_rpcs (sample_requests (chain env (tick st)) (number head)))
      as (Hc1 & Hc2 & _ & _).
    unfold sleep, next_tick.
    eexists.
    exists ([EvRpc (ReqGetBlock Latest)]
            ++ map EvRpc (sample_requests (chain env (tick st)) (number head))
            ++ map EvInsert stored
            ++ [EvPrint (MsgLiveMetric (timestamp m) (tvl_assets m));
                EvSleep (interval * 1000)]), stored.
    split; [reflexivity|]. cbn -[sample_requests].
    rewrite !sleeps_app, !requests_app, Hc1, Hc2, Hi1, Hi2. cbn -[sample_requests].
    rewrite <- !app_assoc, ?app_nil_r. cbn -[sample_requests]. cbn in Hl.
    repeat split; auto; try lia.
  - apply Hfail.
    apply (Hh e _ (sample_requests (chain env (tick st)) (number head)));
      try reflexivity; [|lia].
    cbn. rewrite <- app_assoc. reflexivity.
Qed.

Lemma run_live_loop_accounting env interval fuel : forall st,
  exists st' l reqs,
    EtlHistory.run_live_loop env fuel interval st = (Ok tt, st')
    /\ rows st' = rows st ++ l /\ (List.length l <= fuel)%nat
    /\ sleeps (trace st') = sleeps (trace st) ++ repeat (interval * 1000) fuel
    /\ requests (trace st') = requests (trace st) ++ reqs
    /\ (fuel <= List.length reqs <= 5 * fuel)%nat.
Proof.
  induction fuel as [|n IH]; intros st.
  - exists st, [], []. cbn. rewrite !app_nil_r. repeat split; auto.
  - destruct (run_live_iteration_turn env interval st)
      as (st1 & delta & l1 & E1 & _ & _ & _ & Htr & Hsl & Hrq & Hr1 & Hl1 & _).
    destruct (IH st1) as (st2 & l2 & reqs & E2 & Hr2 & Hl2 & Hs2 & Hq2 & Hn2).
    cbn [EtlHistory.run_live_loop]. unfold bind. rewrite E1, E2.
    exists st2, (l1 ++ l2), (requests delta ++ reqs).
    split; [reflexivity|].
    split. { rewrite Hr2, Hr1, <- app_assoc. reflexivity. }
    split. { rewrite length_app. lia. }
    split. { rewrite Hs2, Htr, sleeps_app, Hsl, <- app_assoc. reflexivity. }
    split. { rewrite Hq2, Htr, requests_app, <- app_assoc. reflexivity. }
    rewrite length_app. lia.
Qed.

(** X14. The accounting of [run_live] over any number of turns, whatever
    the node and the store do: it pauses exactly once per turn, for the
    interval; it sends between one and five requests per turn; it appends
    at most one row per turn and leaves the earlier rows in place. *)
Theorem run_live_turn_accounting env fuel interval st :
  let st' := snd (EtlHistory.run_live env fuel interval st) in
  (exists l, rows st' = rows st ++ l /\ (List.length l <= fuel)%nat)
  /\ sleeps (trace st') = sleeps (trace st) ++ repeat (interval * 1000) fuel
  /\ (exists reqs, requests (trace st') = requests (trace st) ++ reqs
                   /\ (fuel <= List.length reqs <= 5 * fuel)%nat).
Proof.
  unfold EtlHistory.run_live, bind, print.
  destruct (run_live_loop_accounting env interval fuel (log [EvPrint MsgLiveStart] st))
    as (st' & l & reqs & E & Hr & Hl & Hs & Hq & Hn).
  cbv zeta. rewrite E. cbn [snd].
  cbn in Hr, Hs, Hq. rewrite sleeps_app, requests_app in *. cbn in Hs, Hq.
  rewrite app_nil_r in Hs, Hq.
  split; [exists l; auto|]. split; [exact Hs|]. exists reqs. auto.
Qed.

(** X15. A turn of [run_live] in which the head read, the sample or the
    store fails stores nothing and still ends normally. *)
Theorem run_live_failed_turn_stores_nothing env interval st
  (Hfailed : live_ok env (tick st) = false) :
  fst (EtlHistory.run_live_iteration env interval st) = Ok tt
  /\ rows (snd (EtlHistory.run_live_iteration env interval st)) = rows st.
Proof.
  destruct (run_live_iteration_turn env interval st)
    as (st1 & delta & l1 & E1 & _ & _ & _ & _ & _ & _ & Hr1 & _ & Hnil).
  rewrite E1. cbn [fst snd]. split; [reflexivity|].
  rewrite Hr1, (Hnil Hfailed). apply app_nil_r.
Qed.

Lemma run_live_failed_turn_stores_nothing_witness :
  live_ok (world (fun _ => dead_reader)) (tick populated_store) = false
  /\ rows (snd (EtlHistory.run_live_iteration (world (fun _ => dead_reader)) 300
                  populated_store))
     = rows populated_store.
Proof.
  split; [reflexivity|].
  exact (proj2 (run_live_failed_turn_stores_nothing
                  (world (fun _ => dead_reader)) 300 populated_store eq_refl)).
Defined.

(** *** [etl.py]: extract, load and the loop *)

(** [extract_and_transform] is [sample_latest] together with at most four
    requests; it changes nothing but the trace. *)
Lemma extract_and_transform_eq env st :
  exists rs,
    Etl.extract_and_transform env st
    = (sample_latest (chain env (tick st)), log (map EvRpc rs) st)
    /\ (1 <= List.length rs <= 4)%nat.
Proof.
  unfold Etl.extract_and_transform, sample_latest, bind, rpc, lift, bindR.
  cbn [tick log].
  destruct (get_block (chain env (tick st)) Latest).
  2:{ exists [ReqGetBlock Latest]. split; [reflexivity|simpl; lia]. }
  destruct (totalAssets (chain env (tick st)) Latest).
  2:{ exists [ReqGetBlock Latest; ReqTotalAssets Latest].
      rewrite log_log. split; [reflexivity|simpl; lia]. }
  destruct (totalSupply (chain env (tick st)) Latest).
  2:{ exists [ReqGetBlock Latest; ReqTotalAssets Latest; ReqTotalSupply Latest].
      rewrite !log_log. split; [reflexivity|simpl; lia]. }
  exists [ReqGetBlock Latest; ReqTotalAssets Latest; ReqTotalSupply Latest;
          ReqDecimals Latest].
  destruct (decimals (chain env (tick st)) Latest);
    rewrite !log_log; (split; [reflexivity|simpl; lia]).
Qed.

(** [load], whatever the store does. *)
Lemma load_turn env m st :
  exists st' tail l,
    Etl.load env m st = (Ok tt, st')
    /\ tick st' = tick st /\ pending st' = []
    /\ db_schema st' = db_schema st
    /\ trace st' = trace st ++ tail
    /\ requests tail = [] /\ sleeps tail = []
    /\ rows st' = rows st ++ l /\ (List.length l <= 1)%nat
    /\ (forall e, db_fault env (tick st) = Some e ->
        l = [] /\ printed tail = [MsgLoadError e]).
Proof.
  unfold Etl.load, bind, Session, try_finally, try_except, session_add,
    session_commit, session_rollback, session_close, print.
  cbn -[flush].
  destruct (db_fault env (tick st)) as [e|].
  - eexists. exists [EvRollback; EvPrint (MsgLoadError e)], [].
    split; [reflexivity|]. cbn. rewrite <- !app_assoc, app_nil_r. cbn.
    repeat split; auto; inversion H; reflexivity.
  - destruct (flush _ _ _ _ _) as [[[rows' stored] next']|e] eqn:Ef.
    + destruct (flush_appends _ _ _ _ _ _ _ _ Ef) as [-> Hl].
      destruct (trace_of_inserts stored) as (Hi1 & Hi2 & Hi3).
      eexists. eexists. exists stored.
      split; [reflexivity|]. cbn.
      rewrite <- !app_assoc.
      split; [reflexivity|]. split; [reflexivity|]. split; [reflexivity|].
      split; [reflexivity|].
      rewrite requests_app, sleeps_app, Hi1, Hi2. cbn.
      repeat split; auto; try discriminate. simpl in Hl. lia.
    + eexists. exists [EvRollback; EvPrint (MsgLoadError e)], [].
      split; [reflexivity|]. cbn. rewrite <- !app_assoc, app_nil_r. cbn.
      repeat split; auto; discriminate.
Qed.

(** X16. [load] never raises: a store error is rolled back and printed,
    the session is released, the rows are as before; in any case at most
    one row is appended and the node is not contacted. *)
Theorem load_never_raises env metric_obj st :
  let r := Etl.load env metric_obj st in
  fst r = Ok tt
  /\ pending (snd r) = []
  /\ requests (trace (snd r)) = requests (trace st)
  /\ (exists l, rows (snd r) = rows st ++ l /\ (List.length l <= 1)%nat)
  /\ (forall e, db_fault env (tick st) = Some e ->
      rows (snd r) = rows st
      /\ printed (trace (snd r)) = printed (trace st) ++ [MsgLoadError e]).
Proof.
  destruct (load_turn env metric_obj st)
    as (st' & tail & l & E & _ & Hp & _ & Htr & Hq & _ & Hr & Hl & Hf).
  cbv zeta. rewrite E. cbn [fst snd].
  split; [reflexivity|]. split; [exact Hp|].
  split. { rewrite Htr, requests_app, Hq. apply app_nil_r. }
  split; [exists l; auto|].
  intros e He. destruct (Hf e He) as [-> Hpr].
  rewrite Hr, Htr, printed_app, Hpr, app_nil_r. auto.
Qed.

Lemma sample_latest_inv c m :
  sample_latest c = Ok m ->
  exists head raw_assets,
    get_block c Latest = Ok head /\ totalAssets c Latest = Ok raw_assets
    /\ id m = None /\ timestamp m = None
    /\ block_number m = Some (number head)
    /\ option_map int_of_str (raw_total_assets m) = Some (Some raw_assets).
Proof.
  unfold sample_latest, bindR.
  destruct (get_block c Latest) as [head|]; [|discriminate].
  destruct (totalAssets c Latest) as [ra|]; [|discriminate].
  destruct (totalSupply c Latest) as [rs|]; [|discriminate].
  destruct (decimals c Latest) as [d|]; [|discriminate].
  intros H. exists head, ra. split; [reflexivity|]. split; [reflexivity|].
  destruct (etl_metric_keeps_raw_total_assets _ _ _ _ _ H) as [_ Hraw].
  unfold Etl.build_metric, bindR in H.
  destruct (int_pow 10 d); [|discriminate].
  destruct (int_truediv ra a); [|discriminate].
  destruct (if rs >? 0 then int_truediv ra rs else Ok float_one); [|discriminate].
  inversion H; subst; cbn in *. auto.
Qed.

(** X17. A turn of [run] in [etl.py] whose reads and insert succeed
    appends one row: its block number is the head's, its raw value reads
    back as the [totalAssets] answer, its id is the next of the sequence,
    and its timestamp is the wall clock at the insert, not the time of
    the block. *)
Theorem run_iteration_stores_wall_clock_row env interval st m
  (Hschema : db_schema st = vault_metrics)
  (Hids : ids_below (next_id st) (rows st))
  (Hdb : db_fault env (tick st) = None)
  (Hsample : sample_latest (chain env (tick st)) = Ok m) :
  exists row head raw_assets,
    rows (snd (Etl.run_iteration env interval st)) = rows st ++ [row]
    /\ fst (Etl.run_iteration env interval st) = Ok tt
    /\ get_block (chain env (tick st)) Latest = Ok head
    /\ totalAssets (chain env (tick st)) Latest = Ok raw_assets
    /\ block_number row = Some (number head)
    /\ option_map int_of_str (raw_total_assets row) = Some (Some raw_assets)
    /\ timestamp row = Some (wall_clock env (tick st))
    /\ id row = Some (next_id st)
    /\ tvl_assets row = tvl_assets m /\ share_price row = share_price m.
Proof.
  destruct (sample_latest_inv _ _ Hsample)
    as (head & ra & Hh & Ha & Hid & Hts & Hbn & Hraw).
  exists (with_defaults (next_id st) (wall_clock env (tick st)) m), head, ra.
  assert (E : exists st',
             Etl.run_iteration env interval st = (Ok tt, st')
             /\ rows st'
                = rows st ++ [with_defaults (next_id st) (wall_clock env (tick st)) m]).
  { unfold Etl.run_iteration. unfold bind at 1.
    destruct (extract_and_transform_eq env st) as (rs & -> & _).
    rewrite Hsample.
    unfold Etl.load, bind, Session, try_finally, try_except, session_add,
      session_commit, session_rollback, session_close, print, sleep, next_tick.
    cbn -[flush]. rewrite Hdb, Hschema.
    rewrite (flush_one _ _ _ _ Hids Hid). cbn.
    eexists. split; reflexivity. }
  destruct E as (st' & E1 & E2). rewrite E1. cbn [fst snd]. rewrite E2.
  cbn [with_defaults id timestamp block_number raw_total_assets tvl_assets
       share_price].
  rewrite Hid, Hts. auto 12.
Qed.

Lemma run_iteration_stores_wall_clock_row_witness :
  db_schema empty_store = vault_metrics
  /\ db_fault example_env (tick empty_store) = None
  /\ exists row head raw_assets,
       rows (snd (Etl.run_iteration example_env 300 empty_store))
       = rows empty_store ++ [row]
       /\ fst (Etl.run_iteration example_env 300 empty_store) = Ok tt
       /\ get_block (chain example_env (tick empty_store)) Latest = Ok head
       /\ totalAssets (chain example_env (tick empty_store)) Latest = Ok raw_assets
       /\ block_number row = Some (number head)
       /\ option_map int_of_str (raw_total_assets row) = Some (Some raw_assets)
       /\ timestamp row = Some (wall_clock example_env (tick empty_store))
       /\ id row = Some (next_id empty_store)
       /\ tvl_assets row = Some float_three_halves
       /\ share_price row = Some float_three_halves.
Proof.
  split; [reflexivity|]. split; [reflexivity|].
  exact (run_iteration_stores_wall_clock_row example_env 300 empty_store
           {| id := None; timestamp := None; block_number := Some 350;
              tvl_assets := Some float_three_halves;
              share_price := Some float_three_halves;
              raw_total_assets := Some "1500000000"%string |}
           eq_refl (Forall_nil _) eq_refl eq_refl).
Defined.

(** One turn of [run]: it ends normally exactly when the sample does. *)
Lemma run_iteration_turn env interval st :
  match sample_latest (chain env (tick st)) with
  | Ok _ =>
      exists st', Etl.run_iteration env interval st = (Ok tt, st')
                  /\ tick st' = S (tick st)
                  /\ sleeps (trace st') = sleeps (trace st) ++ [interval * 1000]
  | Raise e =>
      exists st', Etl.run_iteration env interval st = (Raise e, st')
                  /\ tick st' = tick st /\ rows st' = rows st
                  /\ sleeps (trace st') = sleeps (trace st)
  end.
Proof.
  destruct (extract_and_transform_eq env st) as (rs & E & _).
  destruct (trace_of_rpcs rs) as (_ & Hc2 & _ & _).
  destruct (sample_latest (chain env (tick st))) as [m|e];
    unfold Etl.run_iteration; unfold bind at 1; rewrite E.
  - unfold bind at 1.
    destruct (load_turn env m (log (map EvRpc rs) st))
      as (st1 & tail & l & -> & Ht & _ & _ & Htr & _ & Hs & _).
    unfold bind, sleep, next_tick. cbn.
    eexists. split; [reflexivity|]. cbn. rewrite Ht, Htr. cbn.
    rewrite !sleeps_app, Hc2, Hs. cbn. rewrite !app_nil_r. auto.
  - eexists. split; [reflexivity|]. cbn.
    rewrite sleeps_app, Hc2, app_nil_r. auto.
Qed.

(** X18. In [etl.py] store errors never stop [run]: as long as the sample
    of every turn succeeds the loop keeps going, one tick and one pause
    per turn, whatever the store does. *)
Theorem run_survives_store_errors env fuel interval : forall st
  (Hsamples : forall i, (i < fuel)%nat ->
                exists m, sample_latest (chain env (tick st + i)) = Ok m),
  let r := Etl.run env fuel interval st in
  fst r = Ok tt
  /\ tick (snd r) = (tick st + fuel)%nat
  /\ sleeps (trace (snd r)) = sleeps (trace st) ++ repeat (interval * 1000) fuel.
Proof.
  intros st Hs. unfold Etl.run, bind, print. cbv zeta.
  assert (Hl : forall s,
    (forall i, (i < fuel)%nat ->
       exists m, sample_latest (chain env (tick s + i)) = Ok m) ->
    exists s', Etl.run_loop env fuel interval s = (Ok tt, s')
               /\ tick s' = (tick s + fuel)%nat
               /\ sleeps (trace s')
                  = sleeps (trace s) ++ repeat (interval * 1000) fuel).
  { clear st Hs. induction fuel as [|n IH]; intros s Hs.
    - exists s. cbn. rewrite app_nil_r. auto.
    - cbn [Etl.run_loop]. unfold bind.
      pose proof (run_iteration_turn env interval s) as Ht.
      destruct (Hs 0%nat ltac:(lia)) as [m Hm]. rewrite Nat.add_0_r in Hm.
      rewrite Hm in Ht. destruct Ht as (s1 & -> & Ht1 & Hs1).
      destruct (IH s1) as (s2 & -> & Ht2 & Hs2).
      { intros i Hi. rewrite Ht1. destruct (Hs (S i) ltac:(lia)) as [m' Hm'].
        exists m'. now rewrite Nat.add_succ_comm. }
      exists s2. split; [reflexivity|]. split; [lia|].
      rewrite Hs2, Hs1, <- app_assoc. reflexivity. }
  destruct (Hl (log [EvPrint MsgRunStart] st) Hs) as (s' & -> & Ht & Hsl).
  cbn [fst snd]. split; [reflexivity|]. split; [exact Ht|].
  rewrite Hsl. cbn. rewrite sleeps_app. cbn. now rewrite app_nil_r.
Qed.

Lemma run_survives_store_errors_witness :
  fst (Etl.run {| chain := chain example_env;
                  db_fault := fun _ => Some (OperationalError "server closed the connection");
                  wall_clock := wall_clock example_env |} 3 300 empty_store)
  = Ok tt.
Proof.
  refine (proj1 (run_survives_store_errors
                   {| chain := chain example_env;
                      db_fault := fun _ => Some (OperationalError "server closed the connection");
                      wall_clock := wall_clock example_env |} 3 300 empty_store _)).
  intros i _. eexists. reflexivity.
Defined.

(** X19. [run] stops at the first turn whose sample fails, with that
    error: the turns before it are completed, the failing turn stores
    nothing and does not pause, and no later turn runs. *)
Theorem run_stops_at_first_failed_sample env interval e : forall first fuel st
  (Hbefore : forall i, (i < first)%nat ->
               exists m, sample_latest (chain env (tick st + i)) = Ok m)
  (Hfails : sample_latest (chain env (tick st + first)) = Raise e)
  (Hreached : (first < fuel)%nat),
  let r := Etl.run env fuel interval st in
  fst r = Raise e
  /\ tick (snd r) = (tick st + first)%nat
  /\ sleeps (trace (snd r)) = sleeps (trace st) ++ repeat (interval * 1000) first.
Proof.
  intros first fuel st Hb Hf Hr. unfold Etl.run, bind, print. cbv zeta.
  assert (Hl : forall first fuel s,
    (forall i, (i < first)%nat ->
       exists m, sample_latest (chain env (tick s + i)) = Ok m) ->
    sample_latest (chain env (tick s + first)) = Raise e ->
    (first < fuel)%nat ->
    exists s', Etl.run_loop env fuel interval s = (Raise e, s')
               /\ tick s' = (tick s + first)%nat
               /\ sleeps (trace s')
                  = sleeps (trace s) ++ repeat (interval * 1000) first).
  { clear. induction first as [|k IH]; intros fuel s Hb Hf Hr.
    - destruct fuel as [|n]; [lia|]. cbn [Etl.run_loop]. unfold bind.
      pose proof (run_iteration_turn env interval s) as Ht.
      rewrite Nat.add_0_r in Hf. rewrite Hf in Ht.
      destruct Ht as (s1 & -> & Ht1 & _ & Hs1).
      exists s1. split; [reflexivity|]. split; [lia|].
      rewrite Hs1. cbn. now rewrite app_nil_r.
    - destruct fuel as [|n]; [lia|]. cbn [Etl.run_loop]. unfold bind.
      pose proof (run_iteration_turn env interval s) as Ht.
      destruct (Hb 0%nat ltac:(lia)) as [m Hm]. rewrite Nat.add_0_r in Hm.
      rewrite Hm in Ht. destruct Ht as (s1 & -> & Ht1 & Hs1).
      destruct (IH n s1) as (s2 & -> & Ht2 & Hs2).
      { intros i Hi. rewrite Ht1. destruct (Hb (S i) ltac:(lia)) as [m' Hm'].
        exists m'. now rewrite Nat.add_succ_comm. }
      { rewrite Ht1. now rewrite Nat.add_succ_comm. }
      { lia. }
      exists s2. split; [reflexivity|]. split; [lia|].
      rewrite Hs2, Hs1, <- app_assoc. reflexivity. }
  destruct (Hl first fuel (log [EvPrint MsgRunStart] st) Hb Hf Hr)
    as (s' & -> & Ht & Hsl).
  cbn [fst snd]. split; [reflexivity|]. split; [exact Ht|].
  rewrite Hsl. cbn. rewrite sleeps_app. cbn. now rewrite app_nil_r.
Qed.

Lemma run_stops_at_first_failed_sample_witness :
  sample_latest (chain flaky_env (tick empty_store + 1))
  = Raise (RpcError "connection refused")
  /\ fst (Etl.run flaky_env 5 300 empty_store)
     = Raise (RpcError "connection refused")
  /\ tick (snd (Etl.run flaky_env 5 300 empty_store)) = (tick empty_store + 1)%nat.
Proof.
  split; [reflexivity|].
  assert (Hb : forall i, (i < 1)%nat ->
            exists m, sample_latest (chain flaky_env (tick empty_store + i)) = Ok m).
  { intros i Hi. assert (i = 0)%nat as -> by lia. eexists. reflexivity. }
  pose proof (run_stops_at_first_failed_sample flaky_env 300 _ 1%nat 5%nat
                empty_store Hb eq_refl ltac:(lia)) as H.
  exact (conj (proj1 H) (proj1 (proj2 H))).
Defined.

(** *** The whole of [etl_with_history.py] *)

(** With a non-zero stride [backfill_history] ends normally exactly when
    its prelude does. *)
Lemma backfill_history_result env cfg step st :
  step <> 0 ->
  fst (EtlHistory.backfill_history env cfg step st) = Ok tt
  <-> (db_fault env (tick st) = None
       /\ (rows st = [] ->
           exists head, get_block (chain env (tick st)) Latest = Ok head)).
Proof.
  intros Hstep.
  destruct (db_fault env (tick st)) as [e|] eqn:Hdb.
  - unfold EtlHistory.backfill_history, bind, Session, query_count.
    cbn [tick set_pending log]. rewrite Hdb. cbn.
    split; [discriminate|intros [H _]; discriminate].
  - destruct (rows st) as [|r rs] eqn:Hrows.
    + destruct (get_block (chain env (tick st)) Latest) as [head|e] eqn:Hh.
      * destruct (backfill_history_enter env cfg step st head)
          as (st1 & _ & ->); auto.
        cbn. split; eauto.
      * unfold EtlHistory.backfill_history, bind, Session, query_count, print,
          rpc, lift, next_tick, session_close.
        cbn [tick set_pending log]. rewrite Hdb. cbn [rows set_pending].
        rewrite Hrows. cbn [List.length Z.of_nat Z.eqb]. cbn [tick log set_pending].
        rewrite Hh. cbn.
        split; [discriminate|].
        intros [_ H]. destruct (H eq_refl). discriminate.
    + unfold EtlHistory.backfill_history, bind, Session, query_count, print,
        session_close.
      cbn [tick set_pending log]. rewrite Hdb. cbn [rows set_pending].
      rewrite Hrows. cbn.
      split; [|reflexivity]. intros _. split; [reflexivity|discriminate].
Qed.

Lemma VaultETL_init_eq env create_engine cfg st :
  EtlHistory.VaultETL_init env create_engine cfg st
  = match create_engine (EtlHistory.DB_URL cfg) with
    | Raise e => (Raise e, st)
    | Ok _ =>
        match db_fault env (tick st) with
        | Some e => (Raise e, st)
        | None =>
            (Ok tt, if table_exists st then st else set_table vault_metrics st)
        end
    end.
Proof.
  unfold EtlHistory.VaultETL_init, bind, lift, create_all.
  destruct (create_engine _); reflexivity.
Qed.

(** X20. The only errors that end [etl_with_history.py] are those of its
    startup: the script reaches its live loop, and then runs it for any
    number of turns, exactly when [RPC_URL] is set and not empty, the
    engine can be created from [DB_URL], the store answers, and, on an
    empty table, the head read of the backfill is answered. *)
Theorem program_fails_only_at_startup env create_engine getenv fuel st :
  fst (EtlHistory.program env create_engine getenv fuel st) = Ok tt
  <-> startup_ok env create_engine getenv st.
Proof.
  unfold startup_ok, EtlHistory.program, EtlHistory.module_init.
  unfold bind at 1. unfold lift at 1. cbv zeta.
  destruct (truthy (getenv "RPC_URL"%string)); cbn [negb].
  2:{ cbn. split; [discriminate|intros [H _]; discriminate]. }
  unfold EtlHistory.main, bind. rewrite VaultETL_init_eq. cbn [EtlHistory.DB_URL].
  destruct (create_engine (getenv "DB_URL"%string)) as [[]|e].
  2:{ cbn. split; [discriminate|intros (_ & H & _); discriminate]. }
  destruct (db_fault env (tick st)) as [e|] eqn:Hdb.
  { cbn. split; [discriminate|intros (_ & _ & H & _); discriminate]. }
  set (st0 := if table_exists st then st else set_table vault_metrics st).
  assert (Ht : tick st0 = tick st) by (subst st0; destruct (table_exists st); reflexivity).
  assert (Hr : rows st0 = rows st) by (subst st0; destruct (table_exists st); reflexivity).
  pose proof (backfill_history_result env
                {| EtlHistory.RPC_URL :=
                     match getenv "RPC_URL"%string with Some s => s | None => ""%string end;
                   EtlHistory.DB_URL := getenv "DB_URL"%string;
                   EtlHistory.PROXY_ADDRESS := "0x8ECC0B419dfe3AE197BC96f2a03636b5E1BE91db"%string;
                   EtlHistory.DEPLOYMENT_BLOCK := 23356156 |}
                50000 st0 ltac:(lia)) as Hb.
  rewrite Ht, Hr, Hdb in Hb.
  destruct (EtlHistory.backfill_history _ _ _ st0) as [[[]|e] st1]; cbn [fst] in Hb.
  - destruct (run_live_never_stops env 300 fuel st1) as (st2 & -> & _).
    cbn [fst]. destruct Hb as [Hb _]. destruct (Hb eq_refl) as [_ Hhead].
    split; auto.
  - cbn [fst]. split; [discriminate|].
    intros (_ & _ & _ & H). destruct Hb as [_ Hb].
    discriminate Hb. auto.
Qed.

(** *** The whole of [etl.py] *)

Lemma run_loop_result env interval fuel : forall s,
  fst (Etl.run_loop env fuel interval s) = Ok tt
  <-> (forall i, (i < fuel)%nat ->
         exists m, sample_latest (chain env (tick s + i)) = Ok m).
Proof.
  induction fuel as [|n IH]; intros s.
  - cbn. split; [intros _ i Hi; lia|reflexivity].
  - cbn [Etl.run_loop]. unfold bind.
    pose proof (run_iteration_turn env interval s) as Ht.
    destruct (sample_latest (chain env (tick s))) as [m|e] eqn:Hm.
    + destruct Ht as (s1 & -> & Ht1 & _). rewrite IH, Ht1. split.
      * intros H [|i] Hi.
        { rewrite Nat.add_0_r. eauto. }
        { rewrite <- Nat.add_succ_comm. apply H. lia. }
      * intros H i Hi. rewrite Nat.add_succ_comm. apply H. lia.
    + destruct Ht as (s1 & -> & _). cbn [fst]. split; [discriminate|].
      intros H. destruct (H 0%nat ltac:(lia)) as [m Hm'].
      rewrite Nat.add_0_r in Hm'. congruence.
Qed.

(** X21. [etl.py] is still running after any number of turns exactly when
    the engine and the table could be created and the reads and the
    transform of every turn so far succeeded: after startup the store
    plays no part in whether the script goes on. *)
Theorem etl_main_runs_iff_samples_succeed env create_engine DB_URL fuel st :
  fst (Etl.main env create_engine DB_URL fuel st) = Ok tt
  <-> (create_engine (Some DB_URL) = Ok tt
       /\ db_fault env (tick st) = None
       /\ forall i, (i < fuel)%nat ->
            exists m, sample_latest (chain env (tick st + i)) = Ok m).
Proof.
  unfold Etl.main, Etl.VaultETL_init, Etl.run, bind, lift, create_all, print.
  destruct (create_engine (Some DB_URL)) as [[]|e].
  2:{ cbn. split; [discriminate|intros [H _]; discriminate]. }
  destruct (db_fault env (tick st)) as [e|] eqn:Hdb.
  { cbn. split; [discriminate|intros (_ & H & _); discriminate]. }
  rewrite run_loop_result.
  replace (tick (log [EvPrint MsgRunStart]
                   (if table_exists st then st else set_table vault_metrics st)))
    with (tick st) by (destruct (table_exists st); reflexivity).
  split; [auto|]. intros (_ & _ & H). exact H.
Qed.
